(** * Anilist Activity-Feed Filter: the condition evaluation engine

    A shallow embedding of [ActivityHandler] from
    [src/activityFeedFilter.user.js] (version 1.8.1), together with the
    properties of the removal decision, the string matcher, the
    normalisation of linked conditions and the load counter; and of
    [MainApp], [UIHandler] and [ConfigValidator] of the same script, with
    the properties of the page filter, the load-more loop, the cancel
    button and the validation of the configuration. *)

From Stdlib Require Import Bool List String Ascii NArith ZArith Lia.
Import ListNotations.

Local Open Scope bool_scope.
Local Open Scope list_scope.

(** ** JavaScript values *)

(** An array whose elements are either an [A] (a string, in the script) or
    an array of [A]: the shape of [remove.containsStrings] and of
    [options.linkedConditions] in a configuration that follows the schema,
    which nests no deeper. *)
Inductive Nested (A : Type) : Type :=
| One (a : A)
| Many (l : list A).

Arguments One {A} a.
Arguments Many {A} l.

(** [Array.isArray(i)] *)
Definition isArray {A} (i : Nested A) : bool :=
  match i with One _ => false | Many _ => true end.

(** [typeof i === 'string'] on an element of such an array. *)
Definition isString {A} (i : Nested A) : bool :=
  match i with One _ => true | Many _ => false end.

(** [Array.prototype.flat()], depth 1. *)
Fixpoint flat {A} (l : list (Nested A)) : list A :=
  match l with
  | [] => []
  | One a :: r => a :: flat r
  | Many g :: r => g ++ flat r
  end.

(** [String.prototype.includes(searchString)]: [searchString] occurs in
    [s] as a contiguous run of code units. *)
Fixpoint includes (s searchString : string) : bool :=
  String.prefix searchString s
  || match s with
     | EmptyString => false
     | String _ rest => includes rest searchString
     end.

(** Lower-casing of one ASCII code unit, and of a string of them.  On ASCII
    text this is [String.prototype.toLowerCase]; it is the instance used in
    the concrete examples below, the development itself being parametric in
    the case-folding function. *)
Definition lower_ascii (a : ascii) : ascii :=
  let n := nat_of_ascii a in
  if (65 <=? n)%nat && (n <=? 90)%nat then ascii_of_nat (n + 32) else a.

Fixpoint toLowerCaseASCII (s : string) : string :=
  match s with
  | EmptyString => EmptyString
  | String a r => String (lower_ascii a) (toLowerCaseASCII r)
  end.

(** ** The DOM, as far as the script looks at it *)

(** An element: its class list, its text content, and the answer of
    [querySelector] for every selector ([None] is [null]). *)
#[local] Unset Elimination Schemes.
Inductive Node : Type :=
| Element (classList : list string) (textContent : string)
          (querySelector : string -> option Node).
#[local] Set Elimination Schemes.

Definition classList (n : Node) : list string :=
  let 'Element c _ _ := n in c.
Definition textContent (n : Node) : string :=
  let 'Element _ t _ := n in t.
Definition querySelector (n : Node) : string -> option Node :=
  let 'Element _ _ q := n in q.

(** [classList.contains(token)] *)
Definition classList_contains (n : Node) (token : string) : bool :=
  existsb (String.eqb token) (classList n).

(** The values the condition predicates return: a boolean, an element, or
    [null] / [undefined]. *)
Inductive JSValue : Type :=
| JBool (b : bool)
| JElement (e : Node)
| JNull.

Definition of_query (o : option Node) : JSValue :=
  match o with Some e => JElement e | None => JNull end.

(** ToBoolean *)
Definition truthy (v : JSValue) : bool :=
  match v with
  | JBool b => b
  | JElement _ => true
  | JNull => false
  end.

(** [!v] *)
Definition js_not (v : JSValue) : JSValue := JBool (negb (truthy v)).

(** [a || b] *)
Definition js_or (a b : JSValue) : JSValue := if truthy a then a else b.

(** [v === b] for a boolean literal [b]. *)
Definition strict_eq_bool (v : JSValue) (b : bool) : bool :=
  match v with JBool b' => Bool.eqb b' b | _ => false end.

(** [array.includes(b)] for a boolean literal [b]. *)
Definition includes_bool (l : list JSValue) (b : bool) : bool :=
  existsb (fun v => strict_eq_bool v b) l.

(** ** Configuration *)

Module Key.
(** The keys of [CONDITIONS_MAP], which are the strings the validator
    allows in [linkedConditions]. *)
Inductive t : Set :=
| uncommented | unliked | text | images | videos | containsStrings.

Definition to_string (k : t) : string :=
  match k with
  | uncommented => "uncommented"
  | unliked => "unliked"
  | text => "text"
  | images => "images"
  | videos => "videos"
  | containsStrings => "containsStrings"
  end.

Definition eqb (a b : t) : bool :=
  match a, b with
  | uncommented, uncommented | unliked, unliked | text, text
  | images, images | videos, videos
  | containsStrings, containsStrings => true
  | _, _ => false
  end.

(** [list.includes(k)] *)
Definition mem (k : t) (l : list t) : bool := existsb (eqb k) l.

End Key.

Definition ConditionName := Key.t.

Record Remove := {
  images : bool;
  videos : bool;
  text : bool;
  uncommented : bool;
  unliked : bool;
  containsStrings : list (Nested string)
}.

Record Options := {
  targetLoadCount : N;
  caseSensitive : bool;
  reverseConditions : bool;
  linkedConditions : list (Nested ConditionName)
}.

Record RunOn := { home : bool; social : bool; profile : bool }.

Record Config := { remove : Remove; options : Options; runOn : RunOn }.

(** The value of [remove[name]]: a boolean or the array of term groups. *)
Inductive RemoveValue : Type :=
| RBool (b : bool)
| RStrings (l : list (Nested string)).

Definition remove_get (r : Remove) (name : ConditionName) : RemoveValue :=
  match name with
  | Key.images => RBool (images r)
  | Key.videos => RBool (videos r)
  | Key.text => RBool (text r)
  | Key.uncommented => RBool (uncommented r)
  | Key.unliked => RBool (unliked r)
  | Key.containsStrings => RStrings (containsStrings r)
  end.

(** [remove[name] === true || remove[name].length > 0]; the [length] of a
    boolean is [undefined], and [undefined > 0] is [false]. *)
Definition remove_true_or_nonempty (v : RemoveValue) : bool :=
  match v with
  | RBool b => b
  | RStrings l => (0 <? List.length l)%nat
  end.

(** ToBoolean of [remove[name]]: every array is truthy. *)
Definition remove_truthy (v : RemoveValue) : bool :=
  match v with
  | RBool b => b
  | RStrings _ => true
  end.

(** The [config] constant the script ships with. *)
Definition config : Config := {|
  remove := {| images := false; videos := false; text := false;
               uncommented := false; unliked := false;
               containsStrings := [] |};
  options := {| targetLoadCount := 2; caseSensitive := false;
                reverseConditions := false; linkedConditions := [] |};
  runOn := {| home := true; social := true; profile := false |}
|}.

Module selectors.
Module DIV.
Definition BUTTON : string := "div.load-more".
Definition ACTIVITY : string := "div.activity-entry".
Definition REPLIES : string := "div.action.replies".
Definition LIKES : string := "div.action.likes".
End DIV.
Module SPAN.
Definition COUNT : string := "span.count".
Definition YOUTUBE : string := "span.youtube".
End SPAN.
Module ACTIVITY.
Definition TEXT : string := "activity-text".
Definition MESSAGE : string := "activity-message".
End ACTIVITY.
Module CLASS.
Definition IMAGE : string := "img".
Definition VIDEO : string := "video".
End CLASS.
End selectors.

(** ** Configurations and elements used in the examples *)

Definition with_remove (r : Remove) (cfg : Config) : Config :=
  {| remove := r; options := options cfg; runOn := runOn cfg |}.

Definition with_containsStrings (l : list (Nested string)) (cfg : Config)
  : Config :=
  let r := remove cfg in
  with_remove {| images := images r; videos := videos r; text := text r;
                 uncommented := uncommented r; unliked := unliked r;
                 containsStrings := l |} cfg.

Definition with_reverseConditions (b : bool) (cfg : Config) : Config :=
  let o := options cfg in
  {| remove := remove cfg;
     options := {| targetLoadCount := targetLoadCount o;
                   caseSensitive := caseSensitive o;
                   reverseConditions := b;
                   linkedConditions := linkedConditions o |};
     runOn := runOn cfg |}.

Definition with_linkedConditions (l : list (Nested ConditionName))
           (cfg : Config) : Config :=
  let o := options cfg in
  {| remove := remove cfg;
     options := {| targetLoadCount := targetLoadCount o;
                   caseSensitive := caseSensitive o;
                   reverseConditions := reverseConditions o;
                   linkedConditions := l |};
     runOn := runOn cfg |}.

Fixpoint find_selector (sel : string) (l : list (string * Node))
  : option Node :=
  match l with
  | [] => None
  | (s, e) :: r => if String.eqb sel s then Some e else find_selector sel r
  end.

(** An element for which [querySelector] finds exactly the listed
    selectors. *)
Definition element (classes : list string) (text : string)
           (found : list (string * Node)) : Node :=
  Element classes text (fun sel => find_selector sel found).

Definition leaf : Node := element [] EmptyString [].

(** An activity with an image and a video. *)
Definition entry_image_video : Node :=
  element ["activity-entry"; "activity-text"]%string "look at this"
          [("img", leaf); ("video", leaf)]%string.

(** An activity with an image and no video. *)
Definition entry_image : Node :=
  element ["activity-entry"; "activity-text"]%string "look at this"
          [("img", leaf)]%string.

(** A text activity that has one comment and no like. *)
Definition entry_commented : Node :=
  element ["activity-entry"; "activity-text"]%string "this has FOO and bar"
          [("div.action.replies", element [] "1" [("span.count", leaf)]);
           ("div.action.likes", leaf)]%string.

Definition config_uncommented : Config :=
  with_remove {| images := false; videos := false; text := false;
                 uncommented := true; unliked := false;
                 containsStrings := [] |} config.


Definition config_empty_group : Config :=
  with_linkedConditions [Many []; Many [Key.images]] config.

Definition config_foo_bar_baz : Config :=
  with_containsStrings [Many ["foo"; "bar"]; One "baz"]%string config.

Definition config_empty_terms_group : Config :=
  with_containsStrings [Many []] config.

Definition config_reversed : Config := with_reverseConditions true config.

Definition config_uncommented_reversed : Config :=
  with_reverseConditions true config_uncommented.

Definition config_foo_bar_baz_reversed : Config :=
  with_reverseConditions true config_foo_bar_baz.

Definition config_empty_group_reversed : Config :=
  with_reverseConditions true config_empty_group.

Definition entry_with_text (text : string) : Node :=
  element ["activity-entry"; "activity-text"]%string text [].


Definition config_terms_linked : Config :=
  with_linkedConditions [Many [Key.images; Key.videos]] config_foo_bar_baz.


(** ** ActivityHandler *)

Section ActivityHandler.

(** [String.prototype.toLowerCase]; nothing below depends on how it folds
    case. *)
Variable toLowerCase : string -> string.

Definition LINKED_TRUE : Z := 1.
Definition LINKED_FALSE : Z := 0.
Definition LINKED_NONE : Z := -1.

Definition shouldRemoveImage (node : Node) : JSValue :=
  of_query (querySelector node selectors.CLASS.IMAGE).

Definition shouldRemoveVideo (node : Node) : JSValue :=
  js_or (of_query (querySelector node selectors.CLASS.VIDEO))
        (of_query (querySelector node selectors.SPAN.YOUTUBE)).

Definition shouldRemoveText (node : Node) : JSValue :=
  JBool ((classList_contains node selectors.ACTIVITY.TEXT
          || classList_contains node selectors.ACTIVITY.MESSAGE)
         && negb (truthy (js_or (shouldRemoveImage node)
                                (shouldRemoveVideo node)))).

(** [node.querySelector(outer)?.querySelector(inner)] *)
Definition query_within (node : Node) (outer inner : string) : JSValue :=
  match querySelector node outer with
  | Some e => of_query (querySelector e inner)
  | None => JNull
  end.

Definition shouldRemoveUncommented (node : Node) : JSValue :=
  js_not (query_within node selectors.DIV.REPLIES selectors.SPAN.COUNT).

Definition shouldRemoveUnliked (node : Node) : JSValue :=
  js_not (query_within node selectors.DIV.LIKES selectors.SPAN.COUNT).

(** The closure [containsString] of [shouldRemoveStrings]. *)
Definition containsString (caseSensitive : bool)
           (nodeText strings : string) : bool :=
  if negb caseSensitive
  then includes (toLowerCase nodeText) (toLowerCase strings)
  else includes nodeText strings.

(** The closure [checkStrings] of [shouldRemoveStrings]. *)
Definition checkStrings (caseSensitive : bool) (node : Node)
           (strings : Nested string) : bool :=
  match strings with
  | Many l => forallb (fun str => containsString caseSensitive
                                    (textContent node) str) l
  | One s => containsString caseSensitive (textContent node) s
  end.

Definition shouldRemoveStrings (cfg : Config) (node : Node)
           (reversed : bool) : JSValue :=
  let containsStrings := containsStrings (remove cfg) in
  let caseSensitive := caseSensitive (options cfg) in
  if (List.length (flat containsStrings) =? 0)%nat then JBool false
  else if reversed
       then JBool (negb (existsb (checkStrings caseSensitive node)
                                 containsStrings))
       else JBool (existsb (checkStrings caseSensitive node)
                           containsStrings).

(** The wrapper every structural entry of [CONDITIONS_MAP] has:
    [(node, reverse) => reverse ? !p(node) : p(node)]. *)
Definition reversible (p : Node -> JSValue) (node : Node)
           (reverse : bool) : JSValue :=
  if reverse then js_not (p node) else p node.

Definition CONDITIONS_MAP (cfg : Config)
  : list (ConditionName * (Node -> bool -> JSValue)) :=
  [ (Key.uncommented, reversible shouldRemoveUncommented);
    (Key.unliked, reversible shouldRemoveUnliked);
    (Key.text, reversible shouldRemoveText);
    (Key.images, reversible shouldRemoveImage);
    (Key.videos, reversible shouldRemoveVideo);
    (Key.containsStrings,
     fun node reverse => shouldRemoveStrings cfg node reverse) ].

(** [Map.prototype.get]: the value of the first entry with that key. *)
Fixpoint map_get {V} (m : list (ConditionName * V)) (k : ConditionName)
  : option V :=
  match m with
  | [] => None
  | (k', v) :: r => if Key.eqb k k' then Some v else map_get r k
  end.

(** [this.CONDITIONS_MAP.get(condition)(node, reverse)].  Calling
    [undefined] would throw; [CONDITIONS_MAP_get_total] below shows that
    the lookup never misses, so the last branch is never taken. *)
Definition call_condition (cfg : Config) (condition : ConditionName)
           (node : Node) (reverse : bool) : JSValue :=
  match map_get (CONDITIONS_MAP cfg) condition with
  | Some predicate => predicate node reverse
  | None => JNull
  end.

(** *** removeEntry and its closures *)

Definition linkedConditionsFlat (cfg : Config) : list ConditionName :=
  flat (linkedConditions (options cfg)).

Definition checkLinkedConditions (cfg : Config) (node : Node)
           (conditionList : list ConditionName) : bool :=
  let reverseConditions := reverseConditions (options cfg) in
  if reverseConditions
  then existsb (fun condition =>
                  truthy (call_condition cfg condition node
                                         reverseConditions))
               conditionList
  else forallb (fun condition =>
                  truthy (call_condition cfg condition node
                                         reverseConditions))
               conditionList.

(** The constant [conditions] of [shouldRemoveByLinkedConditions].  In
    its first branch every element is a string, and the single group
    [[linkedConditions]] is the array itself, which is [flat] of it. *)
Definition conditions (linkedConditions : list (Nested ConditionName))
  : list (list ConditionName) :=
  if forallb isString linkedConditions
     && negb (existsb isArray linkedConditions)
  then [flat linkedConditions]
  else map (fun i => match i with Many l => l | One a => [a] end)
           linkedConditions.

(** The constant [checkResult] of [shouldRemoveByLinkedConditions]. *)
Definition checkResult (cfg : Config) (node : Node) : list bool :=
  map (checkLinkedConditions cfg node)
      (conditions (linkedConditions (options cfg))).

(** [checkResult.includes(b)] *)
Definition includes_result (l : list bool) (b : bool) : bool :=
  existsb (Bool.eqb b) l.

Definition shouldRemoveByLinkedConditions (cfg : Config) (node : Node)
  : Z :=
  if (List.length (linkedConditionsFlat cfg) =? 0)%nat then LINKED_NONE
  else
    let checkResult := checkResult cfg node in
    if includes_result checkResult true
       && (negb (reverseConditions (options cfg))
           || negb (includes_result checkResult false))
    then LINKED_TRUE
    else LINKED_FALSE.

Definition shouldSkip (cfg : Config) (condition : ConditionName) : bool :=
  Key.mem condition (linkedConditionsFlat cfg).

(** The constant [checkedConditions] of the reversed branch. *)
Definition checkedConditions (cfg : Config) (node : Node)
  : list JSValue :=
  map (fun '(_, predicate) =>
         predicate node (reverseConditions (options cfg)))
      (filter (fun '(name, _) =>
                 negb (shouldSkip cfg name)
                 && remove_true_or_nonempty (remove_get (remove cfg) name))
              (CONDITIONS_MAP cfg)).

Definition shouldRemoveNode (cfg : Config) (node : Node) : bool :=
  let linkedResult := shouldRemoveByLinkedConditions cfg node in
  if reverseConditions (options cfg) then
    let checkedConditions := checkedConditions cfg node in
    negb (linkedResult =? LINKED_FALSE)%Z
    && negb (includes_bool checkedConditions false)
    && ((linkedResult =? LINKED_TRUE)%Z
        || includes_bool checkedConditions true)
  else
    (linkedResult =? LINKED_TRUE)%Z
    || existsb (fun '(name, predicate) =>
                  negb (shouldSkip cfg name)
                  && remove_truthy (remove_get (remove cfg) name)
                  && truthy (predicate node
                               (reverseConditions (options cfg))))
               (CONDITIONS_MAP cfg).

(** The handler: its counter, its configuration, and the elements it has
    taken out of the document ([node.remove()]), latest first. *)
Record Handler := {
  currentLoadCount : N;
  handler_config : Config;
  removed : list Node
}.

(** [new ActivityHandler(config)] *)
Definition new_ActivityHandler (cfg : Config) : Handler :=
  {| currentLoadCount := 0; handler_config := cfg; removed := [] |}.

(** [shouldRemoveNode() ? node.remove() : this.currentLoadCount++].  The
    counter is a JavaScript number used as a count of elements of the
    page; numbers of that size are exact integers, and the counter is
    modelled by a natural number. *)
Definition removeEntry (h : Handler) (node : Node) : Handler :=
  if shouldRemoveNode (handler_config h) node
  then {| currentLoadCount := currentLoadCount h;
          handler_config := handler_config h;
          removed := node :: removed h |}
  else {| currentLoadCount := currentLoadCount h + 1;
          handler_config := handler_config h;
          removed := removed h |}.

Definition resetState (h : Handler) : Handler :=
  {| currentLoadCount := 0;
     handler_config := handler_config h;
     removed := removed h |}.

(** The methods of the handler, and what a call does to the handler. *)
Inductive Method : Type :=
| call_removeEntry (node : Node)
| call_resetState
| call_shouldRemoveStrings (node : Node) (reversed : bool)
| call_shouldRemoveText (node : Node)
| call_shouldRemoveVideo (node : Node)
| call_shouldRemoveImage (node : Node)
| call_shouldRemoveUncommented (node : Node)
| call_shouldRemoveUnliked (node : Node).

Definition invoke (m : Method) (h : Handler) : Handler :=
  match m with
  | call_removeEntry node => removeEntry h node
  | call_resetState => resetState h
  | call_shouldRemoveStrings _ _ | call_shouldRemoveText _
  | call_shouldRemoveVideo _ | call_shouldRemoveImage _
  | call_shouldRemoveUncommented _ | call_shouldRemoveUnliked _ => h
  end.

(** *** The vocabulary of the specification *)

(** The attributes of an entry, read off the element. *)
Definition hasComments (node : Node) : bool :=
  truthy (query_within node selectors.DIV.REPLIES selectors.SPAN.COUNT).
Definition hasLikes (node : Node) : bool :=
  truthy (query_within node selectors.DIV.LIKES selectors.SPAN.COUNT).
Definition hasImage (node : Node) : bool :=
  truthy (of_query (querySelector node selectors.CLASS.IMAGE)).
Definition hasVideo (node : Node) : bool :=
  truthy (of_query (querySelector node selectors.CLASS.VIDEO))
  || truthy (of_query (querySelector node selectors.SPAN.YOUTUBE)).
Definition isTextOnly (node : Node) : bool :=
  classList_contains node selectors.ACTIVITY.TEXT
  || classList_contains node selectors.ACTIVITY.MESSAGE.

(** The atomic predicate of a condition: the [shouldRemove...] method it
    names, without reversal. *)
Definition atomic (cfg : Config) (name : ConditionName) (node : Node)
  : bool :=
  match name with
  | Key.uncommented => truthy (shouldRemoveUncommented node)
  | Key.unliked => truthy (shouldRemoveUnliked node)
  | Key.text => truthy (shouldRemoveText node)
  | Key.images => truthy (shouldRemoveImage node)
  | Key.videos => truthy (shouldRemoveVideo node)
  | Key.containsStrings => truthy (shouldRemoveStrings cfg node false)
  end.

(** The effective predicate: what the evaluator gets from
    [CONDITIONS_MAP] under the configured [reverseConditions]. *)
Definition effective (cfg : Config) (name : ConditionName) (node : Node)
  : bool :=
  truthy (call_condition cfg name node (reverseConditions (options cfg))).

(** A condition is enabled when its [remove] entry is [true], or, for
    [containsStrings], a non-empty sequence of term groups. *)
Definition enabled (cfg : Config) (name : ConditionName) : Prop :=
  match remove_get (remove cfg) name with
  | RBool b => b = true
  | RStrings l => l <> []
  end.

(** A condition is linked when it occurs anywhere in [linkedConditions]. *)
Definition linked (cfg : Config) (name : ConditionName) : Prop :=
  In name (linkedConditionsFlat cfg).

(** The configuration with the [remove] flag of a structural condition set
    to [b]; [containsStrings] has no flag and is left as it is. *)
Definition set_remove_flag (name : ConditionName) (b : bool) (cfg : Config)
  : Config :=
  let r := remove cfg in
  {| remove :=
       {| images := if Key.eqb name Key.images then b else images r;
          videos := if Key.eqb name Key.videos then b else videos r;
          text := if Key.eqb name Key.text then b else text r;
          uncommented :=
            if Key.eqb name Key.uncommented then b else uncommented r;
          unliked := if Key.eqb name Key.unliked then b else unliked r;
          containsStrings := containsStrings r |};
     options := options cfg;
     runOn := runOn cfg |}.

(** [t] occurs in [s]. *)
Definition Substring (t s : string) : Prop :=
  exists a b : string, s = (a ++ t ++ b)%string.

(** The text contains the term, both case-folded unless [caseSensitive]. *)
Definition Contains (caseSensitive : bool) (text term : string) : Prop :=
  if caseSensitive then Substring term text
  else Substring (toLowerCase term) (toLowerCase text).

(** A term group matches: a single string when the text contains it, a
    sequence of strings when the text contains every one of them. *)
Definition GroupMatches (caseSensitive : bool) (text : string)
           (g : Nested string) : Prop :=
  match g with
  | One s => Contains caseSensitive text s
  | Many l => forall s, In s l -> Contains caseSensitive text s
  end.

(** The string matcher as the specification words it: [false] on an empty
    sequence of term groups, otherwise the disjunction over the groups. *)
Definition spec_matches (text : string) (termGroups : list (Nested string))
           (caseSensitive : bool) : bool :=
  match termGroups with
  | [] => false
  | _ => existsb
           (fun g =>
              match g with
              | One s => containsString caseSensitive text s
              | Many l => forallb (containsString caseSensitive text) l
              end)
           termGroups
  end.

(** ** UIHandler *)

(** [style.display] of the cancel button, as far as the script sets it:
    not at all when the button is created, then ['block'] or ['none']. *)
Inductive Display : Set := display_initial | display_block | display_none.

(** The three properties of the handler ([None] is [null]; the load-more
    button is an element, known by its identity), and what the handler has
    done to the page: the elements it has added a click listener to, one
    entry per [addEventListener]; the timers of [simulateDomEvents] that
    are not cleared; the scroll events dispatched on [window]; the cancel
    buttons appended to [document.body]. *)
Record UIHandler := {
  userPressed : bool;
  cancel : option Display;
  loadMore : option nat;
  click_listeners : list nat;
  intervals : nat;
  scroll_events : nat;
  cancel_buttons : nat
}.

(** [new UIHandler()], on a page the script has not touched. *)
Definition new_UIHandler : UIHandler :=
  {| userPressed := true; cancel := None; loadMore := None;
     click_listeners := []; intervals := 0; scroll_events := 0;
     cancel_buttons := 0 |}.

Definition set_userPressed (b : bool) (u : UIHandler) : UIHandler :=
  {| userPressed := b; cancel := cancel u; loadMore := loadMore u;
     click_listeners := click_listeners u; intervals := intervals u;
     scroll_events := scroll_events u; cancel_buttons := cancel_buttons u |}.

Definition set_cancel (c : option Display) (u : UIHandler) : UIHandler :=
  {| userPressed := userPressed u; cancel := c; loadMore := loadMore u;
     click_listeners := click_listeners u; intervals := intervals u;
     scroll_events := scroll_events u; cancel_buttons := cancel_buttons u |}.

(** [createCancel]: a new button, its [style] set from a string that says
    nothing of [display], appended to the body. *)
Definition createCancel (u : UIHandler) : UIHandler :=
  {| userPressed := userPressed u; cancel := Some display_initial;
     loadMore := loadMore u; click_listeners := click_listeners u;
     intervals := intervals u; scroll_events := scroll_events u;
     cancel_buttons := S (cancel_buttons u) |}.

(** The [onclick] of the cancel button. *)
Definition cancel_onclick (u : UIHandler) : UIHandler :=
  set_cancel (Some display_none) (set_userPressed false u).

Definition showCancel (u : UIHandler) : UIHandler :=
  match cancel u with
  | Some _ => set_cancel (Some display_block) u
  | None => createCancel u
  end.

Definition hideCancel (u : UIHandler) : UIHandler :=
  match cancel u with
  | Some _ => set_cancel (Some display_none) u
  | None => u
  end.

(** [simulateDomEvents]: one more timer. *)
Definition simulateDomEvents (u : UIHandler) : UIHandler :=
  {| userPressed := userPressed u; cancel := cancel u;
     loadMore := loadMore u; click_listeners := click_listeners u;
     intervals := S (intervals u); scroll_events := scroll_events u;
     cancel_buttons := cancel_buttons u |}.

(** One firing of a timer of [simulateDomEvents]:
    [userPressed ? window.dispatchEvent(domEvent) : clearInterval(id)].
    Nothing fires when no timer is left. *)
Definition interval_callback (u : UIHandler) : UIHandler :=
  match intervals u with
  | O => u
  | S k =>
      {| userPressed := userPressed u; cancel := cancel u;
         loadMore := loadMore u; click_listeners := click_listeners u;
         intervals := if userPressed u then S k else k;
         scroll_events :=
           if userPressed u then S (scroll_events u) else scroll_events u;
         cancel_buttons := cancel_buttons u |}
  end.

(** The click listener [setLoadMore] adds. *)
Definition loadMore_listener (u : UIHandler) : UIHandler :=
  showCancel (simulateDomEvents (set_userPressed true u)).

Definition setLoadMore (u : UIHandler) (button : nat) : UIHandler :=
  {| userPressed := userPressed u; cancel := cancel u;
     loadMore := Some button;
     click_listeners := button :: click_listeners u;
     intervals := intervals u; scroll_events := scroll_events u;
     cancel_buttons := cancel_buttons u |}.

(** A click on an element runs the listeners the handler has added to it,
    one after the other.  The listeners of the page itself are no part of
    the script. *)
Definition click (element : nat) (u : UIHandler) : UIHandler :=
  fold_left (fun u' l => if Nat.eqb l element then loadMore_listener u'
                         else u')
            (click_listeners u) u.

(** [this.loadMore?.click() ?? null] *)
Definition clickLoadMore (u : UIHandler) : UIHandler :=
  match loadMore u with
  | Some button => click button u
  | None => u
  end.

Definition UIHandler_resetState (u : UIHandler) : UIHandler :=
  hideCancel (set_userPressed false u).

(** What can happen to the handler: the three methods [MainApp] calls, a
    click on an element or on the cancel button, the firing of a timer. *)
Inductive UIEvent : Set :=
| setLoadMore_called (button : nat)
| clickLoadMore_called
| resetState_called
| element_clicked (element : nat)
| cancel_clicked
| interval_fired.

Definition ui_event (u : UIHandler) (e : UIEvent) : UIHandler :=
  match e with
  | setLoadMore_called button => setLoadMore u button
  | clickLoadMore_called => clickLoadMore u
  | resetState_called => UIHandler_resetState u
  | element_clicked element => click element u
  | cancel_clicked =>
      match cancel u with Some _ => cancel_onclick u | None => u end
  | interval_fired => interval_callback u
  end.

(** The cancel button is on the page and not hidden. *)
Definition cancel_visible (u : UIHandler) : bool :=
  match cancel u with
  | Some display_none | None => false
  | Some _ => true
  end.

(** ** MainApp *)

(** [RegExp(source).test(input)]; nothing below depends on it. *)
Variable RegExp_test : string -> string -> bool.

(** [s.replace('*', '.*')]: the first [*] only. *)
Fixpoint replace_star (s : string) : string :=
  match s with
  | EmptyString => EmptyString
  | String c r =>
      if Ascii.eqb c "*" then String "." (String "*" r)
      else String c (replace_star r)
  end.

Definition urls : list (string * string) :=
  [ ("HOME", "https://anilist.co/home");
    ("PROFILE", "https://anilist.co/user/*/");
    ("SOCIAL", "https://anilist.co/*/social") ]%string.

(** [Object.keys(o)] and [o[key]] of an object literal. *)
Definition Object_keys {V} (o : list (string * V)) : list string :=
  map fst o.

Fixpoint Object_get {V} (o : list (string * V)) (key : string) : option V :=
  match o with
  | [] => None
  | (k, v) :: r => if String.eqb key k then Some v else Object_get r key
  end.

(** [runOn[key]] for a [runOn] with the three properties of the shipped
    configuration and a key that names no method of an object:
    [undefined] is [None]. *)
Definition runOn_get (r : RunOn) (key : string) : option bool :=
  Object_get [("home", home r); ("social", social r);
              ("profile", profile r)]%string key.

Record MainApp := {
  ac : Handler;
  ui : UIHandler;
  app_config : Config
}.

(** [new MainApp(new ActivityHandler(config), new UIHandler(), config)],
    as [main] builds it. *)
Definition new_MainApp (cfg : Config) : MainApp :=
  {| ac := new_ActivityHandler cfg; ui := new_UIHandler;
     app_config := cfg |}.

Definition isAllowedUrl (app : MainApp) (href : string) : bool :=
  let allowedPatterns :=
    filter (fun pattern =>
              match runOn_get (runOn (app_config app)) pattern with
              | Some b => b
              | None => false
              end)
           (Object_keys urls) in
  existsb (fun pattern =>
             match Object_get urls pattern with
             | Some url => RegExp_test (replace_star url) href
             | None => false
             end)
          allowedPatterns.

(** A node of [mutation.addedNodes]: whether it is an [HTMLElement], and
    then its identity, what [matches] answers, and the element as the
    activity handler sees it. *)
Inductive AddedNode : Type :=
| NotHTMLElement
| HTMLElement (id : nat) (matches : string -> bool) (element : Node).

Definition handleAddedNode (app : MainApp) (node : AddedNode) : MainApp :=
  match node with
  | NotHTMLElement => app
  | HTMLElement id matches element =>
      if matches selectors.DIV.ACTIVITY
      then {| ac := removeEntry (ac app) element; ui := ui app;
              app_config := app_config app |}
      else if matches selectors.DIV.BUTTON
           then {| ac := ac app; ui := setLoadMore (ui app) id;
                   app_config := app_config app |}
           else app
  end.

Definition loadMoreOrReset (app : MainApp) : MainApp :=
  if (currentLoadCount (ac app)
      <? targetLoadCount (options (app_config app)))%N
     && userPressed (ui app)
  then {| ac := ac app; ui := clickLoadMore (ui app);
          app_config := app_config app |}
  else {| ac := resetState (ac app); ui := UIHandler_resetState (ui app);
          app_config := app_config app |}.

(** [observeMutations]: a mutation record is the list of its added nodes,
    [href] is [window.location.href]. *)
Definition observeMutations (app : MainApp) (href : string)
           (mutations : list (list AddedNode)) : MainApp :=
  if isAllowedUrl app href
  then loadMoreOrReset
         (fold_left (fun a mutation => fold_left handleAddedNode mutation a)
                    mutations app)
  else app.


(** ** ConfigValidator *)

(** The configuration as the validator receives it: any JavaScript value.
    A number is an integer, or some other number (a fraction, [NaN], an
    infinity), of which the validator only asks [Number.isInteger].  An
    object is the list of its own properties. *)
#[local] Unset Elimination Schemes.
Inductive Value : Type :=
| VUndefined
| VNull
| VBoolean (b : bool)
| VNumber (n : option Z)
| VString (s : string)
| VArray (l : list Value)
| VObject (properties : list (string * Value)).
#[local] Set Elimination Schemes.

(** [value[k]], for a key that names no built-in property or method, as
    the keys of the validator are: [undefined] where the property is
    missing, and a [TypeError] ([None]) on [undefined] and [null]. *)
Definition get_property (value : Value) (k : string) : option Value :=
  match value with
  | VUndefined | VNull => None
  | VObject properties =>
      Some (match Object_get properties k with
            | Some v => v
            | None => VUndefined
            end)
  | _ => Some VUndefined
  end.

(** [String.prototype.split(separator)] for a separator of one character. *)
Fixpoint split (separator : ascii) (s : string) : list string :=
  match s with
  | EmptyString => [EmptyString]
  | String c r =>
      if Ascii.eqb c separator then EmptyString :: split separator r
      else match split separator r with
           | h :: t => String c h :: t
           | [] => [String c EmptyString]
           end
  end.

(** [Array.prototype.join(separator)] on strings. *)
Fixpoint join (separator : string) (l : list string) : string :=
  match l with
  | [] => EmptyString
  | [s] => s
  | s :: r => (s ++ separator ++ join separator r)%string
  end.

(** [key.split('.').reduce((value, k) => value[k], this.config)] *)
Definition getConfigValue (config : Value) (key : string) : option Value :=
  fold_left (fun value k =>
               match value with
               | Some v => get_property v k
               | None => None
               end)
            (split "." key) (Some config).

(** [typeof value === 'boolean'] *)
Definition is_boolean (value : Value) : bool :=
  match value with VBoolean _ => true | _ => false end.

(** [value > 0 && Number.isInteger(value)].  [Number.isInteger] is false
    of everything that is no integer number, so that whatever the
    comparison coerces its operand to, the conjunction holds of positive
    integers only. *)
Definition is_positive_integer (value : Value) : bool :=
  match value with
  | VNumber (Some z) => (0 <? z)%Z
  | _ => false
  end.

(** The callback of [every] in [validateArrayContents], and the method. *)
Fixpoint validateArrayContents_element (element : Value) : bool :=
  match element with
  | VArray arr => forallb validateArrayContents_element arr
  | VString _ => true
  | _ => false
  end.

Definition validateArrayContents (arr : list Value) : bool :=
  forallb validateArrayContents_element arr.

(** [Array.prototype.flat()] on values. *)
Fixpoint Value_flat (l : list Value) : list Value :=
  match l with
  | [] => []
  | VArray g :: r => g ++ Value_flat r
  | x :: r => x :: Value_flat r
  end.

Definition allowedConditions : list string :=
  ["uncommented"; "unliked"; "text"; "images"; "videos";
   "containsStrings"]%string.

(** [allowedConditions.includes(condition)] *)
Definition allowedConditions_includes (condition : Value) : bool :=
  match condition with
  | VString s => existsb (String.eqb s) allowedConditions
  | _ => false
  end.

(** The methods of the validator take [this.errors] and give it back,
    extended by what they push; [None] is a [TypeError] thrown on the
    way. *)
Definition validateBooleans (config : Value) (keys : list string)
           (errors : list string) : option (list string) :=
  fold_left (fun errors key =>
               match errors with
               | None => None
               | Some errors =>
                   match getConfigValue config key with
                   | None => None
                   | Some value =>
                       if negb (is_boolean value)
                       then Some (errors
                                  ++ [(key ++ " should be a boolean")%string])
                       else Some errors
                   end
               end)
            keys (Some errors).

Definition validatePositiveNonZeroInteger (config : Value)
           (key configKey : string) (errors : list string)
  : option (list string) :=
  match getConfigValue config configKey with
  | None => None
  | Some value =>
      if negb (is_positive_integer value)
      then Some (errors
                 ++ [(key ++ " should be a positive non-zero integer")%string])
      else Some errors
  end.

Definition validateStringArrays (config : Value) (keys : list string)
           (errors : list string) : option (list string) :=
  fold_left (fun errors key =>
               match errors with
               | None => None
               | Some errors =>
                   match getConfigValue config key with
                   | None => None
                   | Some (VArray value) =>
                       if negb (validateArrayContents value)
                       then Some (errors
                                  ++ [(key ++ " should only contain strings")
                                        %string])
                       else Some errors
                   | Some _ =>
                       Some (errors ++ [(key ++ " should be an array")%string])
                   end
               end)
            keys (Some errors).

(** [this.getConfigValue(configKey).flat()] throws a [TypeError] on
    everything that is no array. *)
Definition validateLinkedConditions (config : Value) (configKey : string)
           (errors : list string) : option (list string) :=
  match getConfigValue config configKey with
  | Some (VArray value) =>
      let linkedConditions := Value_flat value in
      if existsb (fun condition => negb (allowedConditions_includes condition))
                 linkedConditions
      then Some (errors
                 ++ [(configKey
                        ++ " should only contain the following strings: "
                        ++ join ", " allowedConditions)%string])
      else Some errors
  | _ => None
  end.

Definition boolean_keys : list string :=
  ["remove.uncommented"; "remove.unliked"; "remove.text"; "remove.images";
   "remove.videos"; "options.caseSensitive"; "options.reverseConditions";
   "runOn.home"; "runOn.social"; "runOn.profile"]%string.

(** [this.errors] at the end of [validate], before it looks at its
    length, for a validator that starts with no error. *)
Definition validate_errors (config : Value) : option (list string) :=
  match validatePositiveNonZeroInteger config "options.targetLoadCount"
          "options.targetLoadCount" [] with
  | None => None
  | Some errors =>
      match validateLinkedConditions config "options.linkedConditions"
              errors with
      | None => None
      | Some errors =>
          match validateStringArrays config
                  ["remove.containsStrings"; "options.linkedConditions"]%string
                  errors with
          | None => None
          | Some errors => validateBooleans config boolean_keys errors
          end
      end
  end.

Inductive Outcome : Set :=
| Returned
| Thrown_Error (message : string)
| Thrown_TypeError.

Definition validate (config : Value) : Outcome :=
  match validate_errors config with
  | None => Thrown_TypeError
  | Some errors =>
      if (0 <? List.length errors)%nat
      then Thrown_Error
             ("Script disabled due to configuration errors: "
                ++ join ", " errors)%string
      else Returned
  end.

(** The configuration object a [Config] stands for. *)
Definition Value_of_nested {A} (f : A -> string) (i : Nested A) : Value :=
  match i with
  | One a => VString (f a)
  | Many l => VArray (map (fun a => VString (f a)) l)
  end.

Definition Value_of_Config (cfg : Config) : Value :=
  let r := remove cfg in
  let o := options cfg in
  VObject
    [ ("remove",
       VObject
         [ ("images", VBoolean (images r));
           ("videos", VBoolean (videos r));
           ("text", VBoolean (text r));
           ("uncommented", VBoolean (uncommented r));
           ("unliked", VBoolean (unliked r));
           ("containsStrings",
            VArray (map (Value_of_nested (fun s => s))
                        (containsStrings r))) ]);
      ("options",
       VObject
         [ ("targetLoadCount",
            VNumber (Some (Z.of_N (targetLoadCount o))));
           ("caseSensitive", VBoolean (caseSensitive o));
           ("reverseConditions", VBoolean (reverseConditions o));
           ("linkedConditions",
            VArray (map (Value_of_nested Key.to_string)
                        (linkedConditions o))) ]);
      ("runOn",
       VObject
         [ ("home", VBoolean (home (runOn cfg)));
           ("social", VBoolean (social (runOn cfg)));
           ("profile", VBoolean (profile (runOn cfg))) ]) ]%string.

(** The invariant of the cancel button: it is the only one the handler
    has appended, and it shows only while [userPressed]. *)
Definition cancel_invariant (u : UIHandler) : Prop :=
  (cancel_visible u = true -> userPressed u = true)
  /\ cancel_buttons u = (match cancel u with Some _ => 1 | None => 0 end)%nat.


(** ** Properties *)

(** *** Keys, arrays and strings *)

Lemma Key_eqb_spec (a b : Key.t) : reflect (a = b) (Key.eqb a b).
Proof. destruct a, b; constructor; congruence. Qed.

Lemma Key_eqb_refl (a : Key.t) : Key.eqb a a = true.
Proof. now destruct a. Qed.

Lemma Key_mem_In (k : Key.t) (l : list Key.t) : Key.mem k l = true <-> In k l.
Proof.
  unfold Key.mem. rewrite existsb_exists. split.
  - intros (x & Hx & E). destruct (Key_eqb_spec k x); congruence.
  - intros H. exists k. split; [assumption | apply Key_eqb_refl].
Qed.

Lemma Key_mem_false (k : Key.t) (l : list Key.t) :
  Key.mem k l = false <-> ~ In k l.
Proof.
  rewrite <- Key_mem_In. destruct (Key.mem k l); split; congruence.
Qed.

Lemma length_eqb_0 {A} (l : list A) :
  (List.length l =? 0)%nat = true <-> l = [].
Proof. destruct l; simpl; split; congruence. Qed.

Lemma length_ltb_0 {A} (l : list A) :
  (0 <? List.length l)%nat = true <-> l <> [].
Proof.
  destruct l; cbn; split; try discriminate; try reflexivity.
  intros H. now contradiction H.
Qed.

Lemma flat_In {A} (l : list (Nested A)) (x : A) :
  In x (flat l) <->
  exists i, In i l /\ match i with One a => a = x | Many g => In x g end.
Proof.
  induction l as [| [a | g] r IH]; simpl.
  - split; [tauto | intros (i & [] & _)].
  - rewrite IH. split.
    + intros [E | (i & Hi & Hx)];
        [exists (One a) | exists i]; auto.
    + intros (i & [E | Hi] & Hx);
        [subst i; auto | right; exists i; auto].
  - rewrite in_app_iff, IH. split.
    + intros [Hx | (i & Hi & Hx)];
        [exists (Many g) | exists i]; auto.
    + intros (i & [E | Hi] & Hx);
        [subst i; auto | right; exists i; auto].
Qed.

Lemma prefix_app (t s : string) :
  String.prefix t s = true <-> exists b, s = (t ++ b)%string.
Proof.
  revert s. induction t as [| c t IH]; intros s.
  - split; [exists s; reflexivity | now destruct s].
  - destruct s as [| d s]; simpl.
    + split; [discriminate | intros (b & E); discriminate].
    + destruct (Ascii.ascii_dec c d) as [E | NE].
      * subst d. rewrite IH. split; intros (b & E); exists b; congruence.
      * split; [discriminate | intros (b & E); congruence].
Qed.

Lemma includes_Substring (s t : string) :
  includes s t = true <-> Substring t s.
Proof.
  unfold Substring. induction s as [| c s IH]; cbn [includes].
  - rewrite orb_false_r, prefix_app. split.
    + intros (b & E). exists EmptyString, b. exact E.
    + intros (a & b & E). destruct a; simpl in E; [eauto | discriminate].
  - rewrite orb_true_iff, prefix_app, IH. split.
    + intros [(b & E) | (a & b & E)].
      * exists EmptyString, b. exact E.
      * exists (String c a), b. simpl. congruence.
    + intros (a & b & E). destruct a as [| c' a]; simpl in E.
      * left. eauto.
      * right. exists a, b. congruence.
Qed.

Lemma containsString_Contains (cs : bool) (text term : string) :
  containsString cs text term = true <-> Contains cs text term.
Proof.
  unfold containsString, Contains.
  destruct cs; simpl; apply includes_Substring.
Qed.

Lemma checkStrings_GroupMatches (cs : bool) (node : Node)
      (g : Nested string) :
  checkStrings cs node g = true <-> GroupMatches cs (textContent node) g.
Proof.
  destruct g as [s | l]; simpl.
  - apply containsString_Contains.
  - rewrite forallb_forall. split; intros H s Hs;
      apply containsString_Contains, H, Hs.
Qed.

(** *** The condition map *)

Lemma call_condition_eq (cfg : Config) (name : ConditionName) (node : Node)
      (reverse : bool) :
  call_condition cfg name node reverse =
  match name with
  | Key.uncommented => reversible shouldRemoveUncommented node reverse
  | Key.unliked => reversible shouldRemoveUnliked node reverse
  | Key.text => reversible shouldRemoveText node reverse
  | Key.images => reversible shouldRemoveImage node reverse
  | Key.videos => reversible shouldRemoveVideo node reverse
  | Key.containsStrings => shouldRemoveStrings cfg node reverse
  end.
Proof. destruct name; reflexivity. Qed.

(** Every key is in the map: [CONDITIONS_MAP.get(condition)] is never
    [undefined]. *)
Lemma CONDITIONS_MAP_get_total (cfg : Config) (name : ConditionName) :
  exists predicate, map_get (CONDITIONS_MAP cfg) name = Some predicate.
Proof. destruct name; eexists; reflexivity. Qed.

Lemma In_CONDITIONS_MAP (cfg : Config) (name : ConditionName)
      (predicate : Node -> bool -> JSValue) :
  In (name, predicate) (CONDITIONS_MAP cfg) <->
  map_get (CONDITIONS_MAP cfg) name = Some predicate.
Proof.
  split.
  - simpl. intros H.
    repeat (destruct H as [H | H]; [inversion H; reflexivity |]).
    contradiction.
  - destruct name; intros H; injection H as <-; simpl; tauto.
Qed.

Lemma CONDITIONS_MAP_entry (cfg : Config) (name : ConditionName)
      (predicate : Node -> bool -> JSValue) (node : Node) (reverse : bool) :
  In (name, predicate) (CONDITIONS_MAP cfg) ->
  predicate node reverse = call_condition cfg name node reverse.
Proof.
  intros H. apply In_CONDITIONS_MAP in H.
  unfold call_condition. now rewrite H.
Qed.

Lemma CONDITIONS_MAP_has (cfg : Config) (name : ConditionName) :
  exists predicate, In (name, predicate) (CONDITIONS_MAP cfg).
Proof.
  destruct (CONDITIONS_MAP_get_total cfg name) as (p & H).
  exists p. now apply In_CONDITIONS_MAP.
Qed.

Lemma shouldRemoveStrings_bool (cfg : Config) (node : Node)
      (reversed : bool) :
  shouldRemoveStrings cfg node reversed =
  JBool (truthy (shouldRemoveStrings cfg node reversed)).
Proof.
  unfold shouldRemoveStrings.
  destruct (List.length _ =? 0)%nat, reversed; reflexivity.
Qed.

(** Under reversal every entry of the map returns a boolean, so the strict
    comparisons of [includes(false)] and [includes(true)] see it. *)
Lemma call_condition_reversed_bool (cfg : Config) (name : ConditionName)
      (node : Node) :
  call_condition cfg name node true =
  JBool (truthy (call_condition cfg name node true)).
Proof.
  rewrite call_condition_eq.
  destruct name; try reflexivity. apply shouldRemoveStrings_bool.
Qed.

Lemma effective_not_reversed (cfg : Config) (name : ConditionName)
      (node : Node) :
  reverseConditions (options cfg) = false ->
  effective cfg name node = atomic cfg name node.
Proof.
  intros R. unfold effective. rewrite R, call_condition_eq.
  destruct name; reflexivity.
Qed.

(** The catalogue of atomic predicates, in terms of the attributes of the
    entry. *)
Lemma atomic_table (cfg : Config) (node : Node) :
  atomic cfg Key.uncommented node = negb (hasComments node)
  /\ atomic cfg Key.unliked node = negb (hasLikes node)
  /\ atomic cfg Key.images node = hasImage node
  /\ atomic cfg Key.videos node = hasVideo node
  /\ atomic cfg Key.text node =
     isTextOnly node && negb (atomic cfg Key.images node)
     && negb (atomic cfg Key.videos node).
Proof.
  unfold atomic, hasComments, hasLikes, hasImage, hasVideo, isTextOnly,
    shouldRemoveText, shouldRemoveVideo, shouldRemoveImage, js_or.
  repeat split; try reflexivity.
  - destruct (querySelector node selectors.CLASS.VIDEO); reflexivity.
  - simpl. rewrite <- andb_assoc. f_equal.
    destruct (querySelector node selectors.CLASS.IMAGE),
      (querySelector node selectors.CLASS.VIDEO),
      (querySelector node selectors.SPAN.YOUTUBE); reflexivity.
Qed.

(** *** The string matcher *)

(** C7, as amended.  For every text, sequence of term groups and
    [caseSensitive] flag, the string matcher ([shouldRemoveStrings] without
    reversal) returns [false] when the sequence holds no string at all,
    that is when it is empty or made of empty groups only; otherwise it
    returns the disjunction over the groups, where a single string matches
    iff the text contains it and a sequence of strings matches iff the text
    contains every string of it, text and term being case-folded unless
    [caseSensitive]. *)
Theorem shouldRemoveStrings_matches (cfg : Config) (node : Node) :
  let termGroups := containsStrings (remove cfg) in
  let cs := caseSensitive (options cfg) in
  shouldRemoveStrings cfg node false =
  JBool (match flat termGroups with
         | [] => false
         | _ :: _ => spec_matches (textContent node) termGroups cs
         end)
  /\ (truthy (shouldRemoveStrings cfg node false) = true <->
      flat termGroups <> []
      /\ exists g, In g termGroups /\ GroupMatches cs (textContent node) g).
Proof.
  intros termGroups cs.
  assert (E : shouldRemoveStrings cfg node false =
              JBool (match flat termGroups with
                     | [] => false
                     | _ :: _ => spec_matches (textContent node) termGroups cs
                     end)).
  { unfold shouldRemoveStrings. fold termGroups. fold cs.
    destruct (flat termGroups) as [| x r] eqn:F; simpl; [reflexivity |].
    unfold spec_matches. destruct termGroups as [| g gs].
    - discriminate F.
    - reflexivity. }
  split; [exact E |].
  rewrite E. simpl. destruct (flat termGroups) as [| x r] eqn:F.
  - split; [discriminate | intros [H _]; now contradiction H].
  - unfold spec_matches. destruct termGroups as [| g0 gs] eqn:T.
    + discriminate F.
    + rewrite existsb_exists. split.
      * intros (g & Hg & M). split; [discriminate |].
        exists g. split; [exact Hg |].
        apply (checkStrings_GroupMatches cs node g). exact M.
      * intros (_ & g & Hg & M). exists g. split; [exact Hg |].
        apply (checkStrings_GroupMatches cs node g). exact M.
Qed.

(** *** The effective predicate *)

(** C5, as amended.  Under [reverseConditions] the effective predicate is
    the negation of the atomic one for every structural condition, and for
    [containsStrings] whenever its terms hold at least one string; when
    they hold none, the effective [containsStrings] predicate is [false],
    as the atomic one is. *)
Theorem effective_reversed (cfg : Config) (name : ConditionName)
        (node : Node) :
  reverseConditions (options cfg) = true ->
  effective cfg name node =
  if Key.eqb name Key.containsStrings
     && (List.length (flat (containsStrings (remove cfg))) =? 0)%nat
  then false
  else negb (atomic cfg name node).
Proof.
  intros R. unfold effective. rewrite R, call_condition_eq.
  destruct name; try reflexivity.
  unfold atomic, shouldRemoveStrings. simpl.
  destruct (List.length _ =? 0)%nat; reflexivity.
Qed.

(** *** Linked conditions *)

(** C4.  The check of a linked group is the conjunction of the effective
    predicates of its names when [reverseConditions] is off, and their
    disjunction when it is on.  This holds of every list of names, so of
    every group of [conditions]. *)
Theorem checkLinkedConditions_quantifier (cfg : Config) (node : Node)
        (g : list ConditionName) :
  checkLinkedConditions cfg node g =
  (if reverseConditions (options cfg)
   then existsb (fun n => effective cfg n node) g
   else forallb (fun n => effective cfg n node) g)
  /\ (if reverseConditions (options cfg)
      then checkLinkedConditions cfg node g = true <->
           exists n, In n g /\ effective cfg n node = true
      else checkLinkedConditions cfg node g = true <->
           forall n, In n g -> effective cfg n node = true).
Proof.
  unfold checkLinkedConditions, effective.
  destruct (reverseConditions (options cfg)).
  - split; [reflexivity | apply existsb_exists].
  - split; [reflexivity | apply forallb_forall].
Qed.

Lemma includes_result_In (l : list bool) (b : bool) :
  includes_result l b = true <-> In b l.
Proof.
  unfold includes_result. rewrite existsb_exists. split.
  - intros (x & Hx & E). apply eqb_prop in E. now subst x.
  - intros H. exists b. split; [exact H | apply eqb_reflx].
Qed.

(** C3.  The aggregated linked result is one of [LINKED_NONE],
    [LINKED_TRUE] and [LINKED_FALSE]; it is [LINKED_NONE] exactly when
    [linkedConditionsFlat] is empty; otherwise, with [checkResult] the
    checks of the groups, it is [LINKED_TRUE] iff [checkResult] contains
    [true] and, under [reverseConditions], no [false]; and it is
    [LINKED_FALSE] in all remaining cases. *)
Theorem shouldRemoveByLinkedConditions_tristate (cfg : Config)
        (node : Node) :
  let r := shouldRemoveByLinkedConditions cfg node in
  let results := checkResult cfg node in
  let agree := In true results
               /\ (reverseConditions (options cfg) = true ->
                   ~ In false results) in
  (r = LINKED_NONE \/ r = LINKED_TRUE \/ r = LINKED_FALSE)
  /\ (r = LINKED_NONE <-> linkedConditionsFlat cfg = [])
  /\ (r = LINKED_TRUE <-> linkedConditionsFlat cfg <> [] /\ agree)
  /\ (r = LINKED_FALSE <-> linkedConditionsFlat cfg <> [] /\ ~ agree).
Proof.
  intros r results agree.
  assert (A : includes_result results true
              && (negb (reverseConditions (options cfg))
                  || negb (includes_result results false)) = true
              <-> agree).
  { unfold agree. rewrite andb_true_iff, orb_true_iff, !negb_true_iff.
    rewrite includes_result_In, <- (includes_result_In results false).
    destruct (reverseConditions (options cfg)),
      (includes_result results false); intuition congruence. }
  unfold r, shouldRemoveByLinkedConditions. fold results.
  destruct (linkedConditionsFlat cfg) as [| x l] eqn:F; simpl.
  - unfold LINKED_NONE, LINKED_TRUE, LINKED_FALSE.
    split; [left; reflexivity |]. split; [tauto |].
    split; (split; [discriminate | intros [H _]; now contradiction H]).
  - destruct (includes_result results true
              && (negb (reverseConditions (options cfg))
                  || negb (includes_result results false))) eqn:B;
      unfold LINKED_NONE, LINKED_TRUE, LINKED_FALSE.
    + assert (Ha : agree) by (apply A; reflexivity).
      split; [right; left; reflexivity |].
      split; [split; discriminate |].
      split; split; try discriminate; try reflexivity.
      * intros _. split; [discriminate | exact Ha].
      * intros [_ H']. contradiction.
    + assert (Hn : ~ agree) by (rewrite <- A; discriminate).
      split; [right; right; reflexivity |].
      split; [split; discriminate |].
      split; split; try discriminate; try reflexivity.
      * intros [_ H']. contradiction.
      * intros _. split; [discriminate | exact Hn].
Qed.

Lemma isArray_isString {A} (l : list (Nested A)) :
  forallb isString l = negb (existsb isArray l).
Proof.
  induction l as [| [a | g] r IH]; simpl; [reflexivity | exact IH | reflexivity].
Qed.

Lemma flat_map_One {A} (names : list A) : flat (map One names) = names.
Proof. induction names; simpl; congruence. Qed.

Lemma no_array_map_One {A} (l : list (Nested A)) :
  existsb isArray l = false -> l = map One (flat l).
Proof.
  induction l as [| [a | g] r IH]; simpl; intros H.
  - reflexivity.
  - f_equal. apply IH, H.
  - discriminate H.
Qed.

Lemma concat_conditions (lc : list (Nested ConditionName)) :
  List.concat (conditions lc) = flat lc.
Proof.
  unfold conditions.
  destruct (forallb isString lc && negb (existsb isArray lc)); simpl.
  - apply app_nil_r.
  - induction lc as [| [a | g] r IH]; simpl; congruence.
Qed.

(** C8.  A [linkedConditions] of bare names only is normalised to one
    group holding all of them; one with at least one array is normalised
    element by element, an array becoming a group and a bare name a
    singleton group; and [linkedConditionsFlat] is the union of the names
    of all groups, in either shape. *)
Theorem conditions_normalize :
  (forall names : list ConditionName, conditions (map One names) = [names])
  /\ (forall lc : list (Nested ConditionName),
        if existsb isArray lc
        then conditions lc =
             map (fun i => match i with Many g => g | One a => [a] end) lc
        else conditions lc = [flat lc] /\ lc = map One (flat lc))
  /\ (forall (cfg : Config) (n : ConditionName),
        In n (linkedConditionsFlat cfg) <->
        exists g, In g (conditions (linkedConditions (options cfg)))
                  /\ In n g)
  /\ (forall cfg : Config,
        List.concat (conditions (linkedConditions (options cfg))) =
        linkedConditionsFlat cfg).
Proof.
  assert (S : forall lc : list (Nested ConditionName),
             if existsb isArray lc
             then conditions lc =
                  map (fun i => match i with Many g => g | One a => [a] end)
                      lc
             else conditions lc = [flat lc] /\ lc = map One (flat lc)).
  { intros lc. unfold conditions. rewrite isArray_isString.
    destruct (existsb isArray lc) eqn:E; simpl; [reflexivity |].
    split; [reflexivity | apply no_array_map_One, E]. }
  split; [| split; [exact S | split]].
  - intros names. unfold conditions. rewrite isArray_isString.
    assert (E : existsb isArray (map (@One ConditionName) names) = false)
      by (induction names; simpl; auto).
    rewrite E. simpl. now rewrite flat_map_One.
  - intros cfg n. unfold linkedConditionsFlat.
    rewrite <- concat_conditions, in_concat. split.
    + intros (g & Hg & Hn). exists g. auto.
    + intros (g & Hg & Hn). exists g. auto.
  - intros cfg. apply concat_conditions.
Qed.

(** *** The decision *)

Lemma enabled_iff (cfg : Config) (name : ConditionName) :
  remove_true_or_nonempty (remove_get (remove cfg) name) = true <->
  enabled cfg name.
Proof.
  unfold enabled. destruct (remove_get (remove cfg) name); simpl.
  - reflexivity.
  - apply length_ltb_0.
Qed.

Lemma shouldSkip_linked (cfg : Config) (name : ConditionName) :
  negb (shouldSkip cfg name) = true <-> ~ linked cfg name.
Proof.
  rewrite negb_true_iff. apply Key_mem_false.
Qed.

(** Under reversal, [checkedConditions.includes(b)] says that some enabled
    condition outside the linked ones has effective value [b]. *)
Lemma includes_checkedConditions (cfg : Config) (node : Node) (b : bool) :
  reverseConditions (options cfg) = true ->
  includes_bool (checkedConditions cfg node) b = true <->
  exists n, enabled cfg n /\ ~ linked cfg n /\ effective cfg n node = b.
Proof.
  intros R. unfold includes_bool, checkedConditions, effective.
  rewrite R, existsb_exists. split.
  - intros (v & Hv & E). apply in_map_iff in Hv as ([name p] & Ev & Hin).
    apply filter_In in Hin as (Hin & Hf).
    apply andb_true_iff in Hf as (Hs & He).
    exists name. split; [now apply enabled_iff |].
    split; [now apply shouldSkip_linked |].
    rewrite (CONDITIONS_MAP_entry cfg name p node true Hin) in Ev.
    rewrite call_condition_reversed_bool in Ev. subst v.
    simpl in E. apply eqb_prop in E. rewrite <- E.
    now rewrite call_condition_reversed_bool.
  - intros (n & He & Hl & Hv).
    destruct (CONDITIONS_MAP_has cfg n) as (p & Hin).
    exists (p node true). split.
    + apply in_map_iff. exists (n, p). split; [reflexivity |].
      apply filter_In. split; [exact Hin |].
      apply andb_true_iff. split;
        [now apply shouldSkip_linked | now apply enabled_iff].
    + rewrite (CONDITIONS_MAP_entry cfg n p node true Hin).
      rewrite call_condition_reversed_bool. simpl.
      rewrite Hv. apply eqb_reflx.
Qed.

(** C1.  With [reverseConditions] on, the entry is discarded iff the
    linked result is not [LINKED_FALSE], no enabled condition outside the
    linked ones has a false effective value, and either the linked result
    is [LINKED_TRUE] or some enabled condition outside the linked ones has
    a true effective value.  The effective value is the one the entry of
    [CONDITIONS_MAP] returns. *)
Theorem shouldRemoveNode_reversed (cfg : Config) (node : Node) :
  reverseConditions (options cfg) = true ->
  shouldRemoveNode cfg node = true <->
  shouldRemoveByLinkedConditions cfg node <> LINKED_FALSE
  /\ (forall n, enabled cfg n -> ~ linked cfg n ->
                effective cfg n node <> false)
  /\ (shouldRemoveByLinkedConditions cfg node = LINKED_TRUE
      \/ exists n, enabled cfg n /\ ~ linked cfg n
                   /\ effective cfg n node = true).
Proof.
  intros R. unfold shouldRemoveNode. rewrite R.
  rewrite !andb_true_iff, orb_true_iff, !negb_true_iff.
  rewrite Z.eqb_neq, Z.eqb_eq.
  rewrite (includes_checkedConditions cfg node true R).
  assert (F : includes_bool (checkedConditions cfg node) false = false <->
              forall n, enabled cfg n -> ~ linked cfg n ->
                        effective cfg n node <> false).
  { rewrite <- not_true_iff_false.
    rewrite (includes_checkedConditions cfg node false R). split.
    - intros H n He Hl Hv. apply H. exists n. auto.
    - intros H (n & He & Hl & Hv). exact (H n He Hl Hv). }
  rewrite F. tauto.
Qed.

Lemma shouldRemoveStrings_nonempty (cfg : Config) (node : Node)
      (reversed : bool) :
  truthy (shouldRemoveStrings cfg node reversed) = true ->
  containsStrings (remove cfg) <> [].
Proof.
  unfold shouldRemoveStrings. intros H E. rewrite E in H. discriminate H.
Qed.

(** C2.  With [reverseConditions] off, the entry is discarded iff the
    linked result is [LINKED_TRUE] or some enabled condition that occurs
    nowhere in [linkedConditions] has a true effective value, which is here
    its atomic value. *)
Theorem shouldRemoveNode_not_reversed (cfg : Config) (node : Node) :
  reverseConditions (options cfg) = false ->
  (shouldRemoveNode cfg node = true <->
   shouldRemoveByLinkedConditions cfg node = LINKED_TRUE
   \/ exists n, enabled cfg n /\ ~ linked cfg n
                /\ effective cfg n node = true)
  /\ (forall n, effective cfg n node = atomic cfg n node).
Proof.
  intros R. split; [| intros n; now apply effective_not_reversed].
  unfold shouldRemoveNode. rewrite R, orb_true_iff, Z.eqb_eq.
  apply or_iff_compat_l. rewrite existsb_exists. split.
  - intros ([name p] & Hin & H).
    apply andb_true_iff in H as (H & Hv).
    apply andb_true_iff in H as (Hs & Ht).
    rewrite (CONDITIONS_MAP_entry cfg name p node false Hin) in Hv.
    exists name. split; [| split].
    + unfold enabled.
      destruct (remove_get (remove cfg) name) as [b | l] eqn:G.
      * exact Ht.
      * destruct name; try discriminate G. injection G as <-.
        rewrite call_condition_eq in Hv.
        apply (shouldRemoveStrings_nonempty cfg node false Hv).
    + now apply shouldSkip_linked.
    + unfold effective. now rewrite R.
  - intros (n & He & Hl & Hv).
    destruct (CONDITIONS_MAP_has cfg n) as (p & Hin).
    exists (n, p). split; [exact Hin |].
    rewrite !andb_true_iff. split; [split |].
    + now apply shouldSkip_linked.
    + unfold enabled in He.
      destruct (remove_get (remove cfg) n); [exact He | reflexivity].
    + rewrite (CONDITIONS_MAP_entry cfg n p node false Hin).
      unfold effective in Hv. now rewrite R in Hv.
Qed.

(** *** The counter *)

(** C9.  Processing an entry either removes it and leaves
    [currentLoadCount] as it is, or keeps it and adds exactly one to
    [currentLoadCount]; [resetState] sets the counter to zero; no other
    method of the handler changes it.  No method changes the
    configuration, and only a removal changes the document. *)
Theorem currentLoadCount_frame (h : Handler) (m : Method) :
  currentLoadCount (invoke m h) =
  match m with
  | call_removeEntry node =>
      if shouldRemoveNode (handler_config h) node
      then currentLoadCount h
      else (currentLoadCount h + 1)%N
  | call_resetState => 0%N
  | _ => currentLoadCount h
  end
  /\ removed (invoke m h) =
     match m with
     | call_removeEntry node =>
         if shouldRemoveNode (handler_config h) node
         then node :: removed h
         else removed h
     | _ => removed h
     end
  /\ handler_config (invoke m h) = handler_config h.
Proof.
  destruct m; simpl; unfold removeEntry;
    try destruct (shouldRemoveNode (handler_config h) node);
    repeat split.
Qed.

(** *** Linked conditions and the independent evaluation *)






Lemma In_conditions_empty (lc : list (Nested ConditionName)) :
  In (Many []) lc -> In [] (conditions lc).
Proof.
  intros H. unfold conditions. rewrite isArray_isString.
  assert (E : existsb isArray lc = true).
  { apply existsb_exists. exists (Many []). auto. }
  rewrite E. simpl.
  apply (in_map (fun i => match i with Many l => l | One a => [a] end)
                lc (Many []) H).
Qed.

(** C10.  When [linkedConditions] holds an empty group and some name
    elsewhere: with [reverseConditions] off the check of the empty group is
    [true], the linked result is [LINKED_TRUE] and every entry is
    discarded; with [reverseConditions] on the check of the empty group is
    [false], the linked result is [LINKED_FALSE] and every entry is
    kept. *)
Theorem empty_group_decides (cfg : Config) (node : Node) :
  In (Many []) (linkedConditions (options cfg)) ->
  linkedConditionsFlat cfg <> [] ->
  if reverseConditions (options cfg)
  then checkLinkedConditions cfg node [] = false
       /\ shouldRemoveByLinkedConditions cfg node = LINKED_FALSE
       /\ shouldRemoveNode cfg node = false
  else checkLinkedConditions cfg node [] = true
       /\ shouldRemoveByLinkedConditions cfg node = LINKED_TRUE
       /\ shouldRemoveNode cfg node = true.
Proof.
  intros Hin Hne.
  assert (G : In (checkLinkedConditions cfg node []) (checkResult cfg node)).
  { unfold checkResult. apply in_map, In_conditions_empty, Hin. }
  assert (N : (List.length (linkedConditionsFlat cfg) =? 0)%nat = false).
  { destruct (linkedConditionsFlat cfg); [now contradiction Hne | reflexivity]. }
  destruct (reverseConditions (options cfg)) eqn:R.
  - assert (C : checkLinkedConditions cfg node [] = false)
      by (unfold checkLinkedConditions; now rewrite R).
    rewrite C in G. apply includes_result_In in G.
    assert (T : shouldRemoveByLinkedConditions cfg node = LINKED_FALSE).
    { unfold shouldRemoveByLinkedConditions.
      now rewrite N, R, G, andb_false_r. }
    repeat split; [exact C | exact T |].
    unfold shouldRemoveNode. now rewrite R, T.
  - assert (C : checkLinkedConditions cfg node [] = true)
      by (unfold checkLinkedConditions; now rewrite R).
    rewrite C in G. apply includes_result_In in G.
    assert (T : shouldRemoveByLinkedConditions cfg node = LINKED_TRUE).
    { unfold shouldRemoveByLinkedConditions. now rewrite N, R, G. }
    repeat split; [exact C | exact T |].
    unfold shouldRemoveNode. now rewrite R, T.
Qed.

(** ** Further properties of the decision *)

(** The independent part of the unreversed decision: some enabled
    condition outside the linked ones holds. *)
Lemma independent_some_iff (cfg : Config) (node : Node) :
  reverseConditions (options cfg) = false ->
  existsb (fun '(name, predicate) =>
             negb (shouldSkip cfg name)
             && remove_truthy (remove_get (remove cfg) name)
             && truthy (predicate node (reverseConditions (options cfg))))
          (CONDITIONS_MAP cfg) = true <->
  exists n, enabled cfg n /\ ~ linked cfg n /\ atomic cfg n node = true.
Proof.
  intros R. rewrite existsb_exists. split.
  - intros ([name p] & Hin & H).
    apply andb_true_iff in H as (H & Hv).
    apply andb_true_iff in H as (Hs & Ht).
    rewrite (CONDITIONS_MAP_entry cfg name p node _ Hin) in Hv.
    assert (Ha : atomic cfg name node = true).
    { rewrite <- (effective_not_reversed cfg name node R). exact Hv. }
    exists name. split; [| split; [now apply shouldSkip_linked | exact Ha]].
    unfold enabled.
    destruct (remove_get (remove cfg) name) as [b | l] eqn:G.
    + exact Ht.
    + destruct name; try discriminate G. injection G as <-.
      apply (shouldRemoveStrings_nonempty cfg node false Ha).
  - intros (n & He & Hl & Hv).
    destruct (CONDITIONS_MAP_has cfg n) as (p & Hin).
    exists (n, p). split; [exact Hin |].
    rewrite !andb_true_iff. split; [split |].
    + now apply shouldSkip_linked.
    + unfold enabled in He.
      destruct (remove_get (remove cfg) n); [exact He | reflexivity].
    + rewrite (CONDITIONS_MAP_entry cfg n p node _ Hin).
      rewrite <- (effective_not_reversed cfg n node R) in Hv. exact Hv.
Qed.

(** X1.  A configuration with no linked condition, every flag off and no
    term removes nothing, with [reverseConditions] on as well as off. *)
Theorem nothing_configured_keeps_everything (cfg : Config) (node : Node) :
  linkedConditionsFlat cfg = [] ->
  images (remove cfg) = false -> videos (remove cfg) = false ->
  text (remove cfg) = false -> uncommented (remove cfg) = false ->
  unliked (remove cfg) = false ->
  flat (containsStrings (remove cfg)) = [] ->
  shouldRemoveNode cfg node = false.
Proof.
  intros L Hi Hv Ht Hc Hl Hs.
  unfold shouldRemoveNode, shouldRemoveByLinkedConditions, checkedConditions,
    shouldSkip.
  rewrite L. simpl. rewrite Hi, Hv, Ht, Hc, Hl. simpl.
  unfold shouldRemoveStrings. rewrite Hs. simpl.
  destruct (reverseConditions (options cfg)); simpl.
  - destruct (containsStrings (remove cfg)); reflexivity.
  - reflexivity.
Qed.


Lemma existsb_negb_forallb {A} (f h : A -> bool) (l : list A) :
  (forall a, In a l -> f a = negb (h a)) ->
  existsb f l = negb (forallb h l).
Proof.
  induction l as [| a r IH]; simpl; intros H; [reflexivity |].
  rewrite (H a (or_introl eq_refl)), IH, negb_andb by auto. reflexivity.
Qed.

Lemma includes_result_map_negb (l : list bool) (b : bool) :
  includes_result (map negb l) b = includes_result l (negb b).
Proof.
  unfold includes_result. induction l as [| a r IH]; simpl; [reflexivity |].
  rewrite IH. now destruct a, b.
Qed.

Lemma includes_result_nonempty (l : list bool) :
  l <> [] -> includes_result l true = false -> includes_result l false = true.
Proof.
  destruct l as [| [|] r]; simpl; intros H E;
    [now contradiction H | discriminate E | reflexivity].
Qed.

Lemma conditions_nonempty (lc : list (Nested ConditionName)) :
  flat lc <> [] -> conditions lc <> [].
Proof.
  unfold conditions. intros H.
  destruct (forallb isString lc && negb (existsb isArray lc));
    [discriminate |].
  destruct lc; [now contradiction H | discriminate].
Qed.

Lemma In_conditions_linked (cfg : Config) (g : list ConditionName)
      (c : ConditionName) :
  In g (conditions (linkedConditions (options cfg))) -> In c g ->
  linked cfg c.
Proof.
  intros Hg Hc. unfold linked, linkedConditionsFlat.
  rewrite <- concat_conditions. apply in_concat. exists g. auto.
Qed.

(** Under reversal the entry of the map negates the predicate, except
    for [containsStrings] without any term. *)
Lemma call_condition_negate (cfg : Config) (c : ConditionName)
      (node : Node) :
  (c = Key.containsStrings -> flat (containsStrings (remove cfg)) <> []) ->
  truthy (call_condition cfg c node true) = negb (atomic cfg c node).
Proof.
  intros H. rewrite call_condition_eq. destruct c; try reflexivity.
  unfold atomic, shouldRemoveStrings.
  destruct (flat (containsStrings (remove cfg))) eqn:F;
    [now contradiction (H eq_refl) | reflexivity].
Qed.

(** The checks of the groups under reversal are the negations of the
    checks without it. *)
Lemma checkResult_reversal (cfg : Config) (node : Node) :
  (linked cfg Key.containsStrings ->
   flat (containsStrings (remove cfg)) <> []) ->
  checkResult (with_reverseConditions true cfg) node =
  map negb (checkResult (with_reverseConditions false cfg) node).
Proof.
  intros H. unfold checkResult. rewrite map_map.
  change (linkedConditions (options (with_reverseConditions true cfg)))
    with (linkedConditions (options cfg)).
  change (linkedConditions (options (with_reverseConditions false cfg)))
    with (linkedConditions (options cfg)).
  apply map_ext_in. intros g Hg. unfold checkLinkedConditions. simpl.
  apply existsb_negb_forallb. intros c Hc.
  change (call_condition (with_reverseConditions true cfg) c node true)
    with (call_condition cfg c node true).
  rewrite call_condition_negate.
  - f_equal. symmetry.
    apply (effective_not_reversed (with_reverseConditions false cfg) c node).
    reflexivity.
  - intros ->. apply H. exact (In_conditions_linked cfg g _ Hg Hc).
Qed.

Lemma linked_result_reversal (cfg : Config) (node : Node) :
  (linked cfg Key.containsStrings ->
   flat (containsStrings (remove cfg)) <> []) ->
  linkedConditionsFlat cfg <> [] ->
  let t := includes_result
             (checkResult (with_reverseConditions false cfg) node) true in
  shouldRemoveByLinkedConditions (with_reverseConditions false cfg) node =
  (if t then LINKED_TRUE else LINKED_FALSE)
  /\ shouldRemoveByLinkedConditions (with_reverseConditions true cfg) node =
     (if t then LINKED_FALSE else LINKED_TRUE).
Proof.
  intros H Hne t.
  assert (N : (List.length (linkedConditionsFlat cfg) =? 0)%nat = false).
  { destruct (linkedConditionsFlat cfg); [now contradiction Hne | reflexivity]. }
  unfold shouldRemoveByLinkedConditions.
  change (linkedConditionsFlat (with_reverseConditions false cfg))
    with (linkedConditionsFlat cfg).
  change (linkedConditionsFlat (with_reverseConditions true cfg))
    with (linkedConditionsFlat cfg).
  rewrite N, (checkResult_reversal cfg node H), !includes_result_map_negb.
  simpl. fold t. split.
  - now rewrite andb_true_r.
  - destruct t eqn:T; simpl; [now rewrite andb_false_r |].
    rewrite includes_result_nonempty; [reflexivity | | exact T].
    unfold checkResult. intros E. apply map_eq_nil in E.
    revert E. apply conditions_nonempty, Hne.
Qed.

(** X2.  [reverseConditions] does what its comment says, "only keep posts
    that would be removed by the conditions": provided the terms of
    [containsStrings], where it is linked or has a group, hold at least
    one string, and provided something is configured (a linked condition,
    or an enabled condition outside them), the reversed configuration
    removes exactly the entries the unreversed one keeps. *)
Theorem reversal_complements (cfg : Config) (node : Node) :
  (linked cfg Key.containsStrings \/ containsStrings (remove cfg) <> [] ->
   flat (containsStrings (remove cfg)) <> []) ->
  (linkedConditionsFlat cfg <> []
   \/ exists n, enabled cfg n /\ ~ linked cfg n) ->
  shouldRemoveNode (with_reverseConditions true cfg) node =
  negb (shouldRemoveNode (with_reverseConditions false cfg) node).
Proof.
  intros ND CF.
  set (cT := with_reverseConditions true cfg).
  set (cF := with_reverseConditions false cfg).
  pose (P := exists n, enabled cfg n /\ ~ linked cfg n
                       /\ atomic cfg n node = true).
  assert (IT : forall b, includes_bool (checkedConditions cT node) b = true <->
                         exists n, enabled cfg n /\ ~ linked cfg n
                                   /\ atomic cfg n node = negb b).
  { intros b.
    rewrite (includes_checkedConditions cT node b eq_refl).
    split; intros (n & He & Hl & Hv); exists n;
      (split; [exact He | split; [exact Hl |]]).
    - unfold effective in Hv.
      change (call_condition cT n node (reverseConditions (options cT)))
        with (call_condition cfg n node true) in Hv.
      rewrite call_condition_negate in Hv.
      + rewrite <- Hv. now rewrite negb_involutive.
      + intros ->. apply ND. right. exact He.
    - unfold effective.
      change (call_condition cT n node (reverseConditions (options cT)))
        with (call_condition cfg n node true).
      rewrite call_condition_negate.
      + rewrite Hv. apply negb_involutive.
      + intros ->. apply ND. right. exact He. }
  assert (IF : existsb
                 (fun '(name, predicate) =>
                    negb (shouldSkip cF name)
                    && remove_truthy (remove_get (remove cF) name)
                    && truthy (predicate node
                                 (reverseConditions (options cF))))
                 (CONDITIONS_MAP cF) = true <-> P).
  { apply (independent_some_iff cF node eq_refl). }
  assert (DF : shouldRemoveNode cF node =
               (shouldRemoveByLinkedConditions cF node =? LINKED_TRUE)%Z
               || existsb
                    (fun '(name, predicate) =>
                       negb (shouldSkip cF name)
                       && remove_truthy (remove_get (remove cF) name)
                       && truthy (predicate node
                                    (reverseConditions (options cF))))
                    (CONDITIONS_MAP cF)) by reflexivity.
  assert (DT : shouldRemoveNode cT node =
               negb (shouldRemoveByLinkedConditions cT node =? LINKED_FALSE)%Z
               && negb (includes_bool (checkedConditions cT node) false)
               && ((shouldRemoveByLinkedConditions cT node =? LINKED_TRUE)%Z
                   || includes_bool (checkedConditions cT node) true))
    by reflexivity.
  rewrite DT, DF. clear DT DF.
  destruct (existsb _ (CONDITIONS_MAP cF)) eqn:EF.
  - (* some independent condition holds: kept under reversal *)
    assert (V : includes_bool (checkedConditions cT node) false = true).
    { apply IT. simpl. apply IF. reflexivity. }
    rewrite V, orb_true_r, andb_false_r. reflexivity.
  - assert (NP : ~ P) by (rewrite <- IF; discriminate).
    assert (V : includes_bool (checkedConditions cT node) false = false).
    { apply not_true_iff_false. rewrite IT. exact NP. }
    rewrite V, orb_false_r, andb_true_r.
    destruct (list_eq_dec (fun a b => reflect_dec _ _ (Key_eqb_spec a b))
                          (linkedConditionsFlat cfg) []) as [E | Hne].
    + (* nothing linked *)
      assert (LT : shouldRemoveByLinkedConditions cT node = LINKED_NONE).
      { unfold shouldRemoveByLinkedConditions.
        change (linkedConditionsFlat cT) with (linkedConditionsFlat cfg).
        now rewrite E. }
      assert (LF : shouldRemoveByLinkedConditions cF node = LINKED_NONE).
      { unfold shouldRemoveByLinkedConditions.
        change (linkedConditionsFlat cF) with (linkedConditionsFlat cfg).
        now rewrite E. }
      rewrite LT, LF. simpl.
      destruct CF as [CF | (n & He & Hl)]; [contradiction |].
      apply IT. exists n. split; [exact He | split; [exact Hl |]].
      simpl. apply not_true_iff_false. intros Ha. apply NP.
      exists n. auto.
    + destruct (linked_result_reversal cfg node) as (LF & LT);
        [intros Hl; apply ND; left; exact Hl | exact Hne |].
      fold cF in LF, LT. fold cT in LT. rewrite LT, LF.
      destruct (includes_result (checkResult cF node) true); reflexivity.
Qed.


(** X3.  A linked group that holds [text] together with [images] or
    [videos] cannot be satisfied by any entry: its check is [false]
    without reversal, and [true] with it. *)
Theorem text_with_media_group (cfg : Config) (node : Node)
        (g : list ConditionName) :
  In Key.text g -> In Key.images g \/ In Key.videos g ->
  checkLinkedConditions cfg node g = reverseConditions (options cfg).
Proof.
  intros Ht Hm.
  destruct (atomic_table cfg node) as (_ & _ & _ & _ & T).
  assert (X : forall m, m = Key.images \/ m = Key.videos ->
                        atomic cfg m node = true ->
                        atomic cfg Key.text node = false).
  { intros m [-> | ->] Hm'; rewrite T, Hm';
      destruct (isTextOnly node), (atomic cfg Key.images node),
        (atomic cfg Key.videos node); reflexivity. }
  assert (M : exists m, (m = Key.images \/ m = Key.videos) /\ In m g).
  { destruct Hm; [exists Key.images | exists Key.videos]; auto. }
  destruct M as (m & Em & Hin).
  assert (S : forall c, c = Key.text \/ c = Key.images \/ c = Key.videos ->
                        truthy (call_condition cfg c node true)
                        = negb (atomic cfg c node)).
  { intros c Hc. apply call_condition_negate.
    intros ->. destruct Hc as [Hc | [Hc | Hc]]; discriminate Hc. }
  unfold checkLinkedConditions.
  destruct (reverseConditions (options cfg)) eqn:R.
  - apply existsb_exists.
    destruct (atomic cfg m node) eqn:Am.
    + exists Key.text. split; [exact Ht |].
      rewrite S by auto. now rewrite (X m Em Am).
    + exists m. split; [exact Hin |].
      rewrite S by tauto. now rewrite Am.
  - apply not_true_iff_false. rewrite forallb_forall. intros H.
    assert (At : atomic cfg Key.text node = true).
    { rewrite <- (effective_not_reversed cfg _ node R).
      unfold effective. rewrite R. apply H, Ht. }
    assert (Am : atomic cfg m node = true).
    { rewrite <- (effective_not_reversed cfg _ node R).
      unfold effective. rewrite R. apply H, Hin. }
    rewrite (X m Em Am) in At. discriminate At.
Qed.

Lemma shouldRemoveNode_same_groups (cfg : Config) (node : Node)
      (lc1 lc2 : list (Nested ConditionName)) :
  flat lc1 = flat lc2 -> conditions lc1 = conditions lc2 ->
  shouldRemoveNode (with_linkedConditions lc1 cfg) node =
  shouldRemoveNode (with_linkedConditions lc2 cfg) node.
Proof.
  intros F C.
  unfold shouldRemoveNode, shouldRemoveByLinkedConditions, checkedConditions,
    checkResult, shouldSkip, linkedConditionsFlat.
  simpl. rewrite F, C. reflexivity.
Qed.

(** X4.  The two ways of writing one linked group are interchangeable: a
    [linkedConditions] that lists bare names and one that holds the same
    names as its only array give the same decision on every entry. *)
Theorem flat_list_is_one_group (cfg : Config) (node : Node)
        (names : list ConditionName) :
  shouldRemoveNode (with_linkedConditions (map One names) cfg) node =
  shouldRemoveNode (with_linkedConditions [Many names] cfg) node.
Proof.
  apply shouldRemoveNode_same_groups.
  - simpl. now rewrite flat_map_One, app_nil_r.
  - unfold conditions at 1. rewrite isArray_isString.
    assert (E : existsb isArray (map (@One ConditionName) names) = false)
      by (induction names; simpl; auto).
    rewrite E. simpl. now rewrite flat_map_One.
Qed.


Lemma decision_not_reversed_iff (cfg : Config) (node : Node) :
  reverseConditions (options cfg) = false ->
  shouldRemoveNode cfg node = true <->
  shouldRemoveByLinkedConditions cfg node = LINKED_TRUE
  \/ exists n, enabled cfg n /\ ~ linked cfg n /\ atomic cfg n node = true.
Proof.
  intros R. unfold shouldRemoveNode. rewrite R, orb_true_iff, Z.eqb_eq.
  apply or_iff_compat_l. rewrite <- R. apply independent_some_iff, R.
Qed.

Lemma decision_reversed_iff (cfg : Config) (node : Node) :
  reverseConditions (options cfg) = true ->
  shouldRemoveNode cfg node = true <->
  shouldRemoveByLinkedConditions cfg node <> LINKED_FALSE
  /\ (forall n, enabled cfg n -> ~ linked cfg n ->
                effective cfg n node = true)
  /\ (shouldRemoveByLinkedConditions cfg node = LINKED_TRUE
      \/ exists n, enabled cfg n /\ ~ linked cfg n
                   /\ effective cfg n node = true).
Proof.
  intros R. unfold shouldRemoveNode. rewrite R.
  rewrite !andb_true_iff, orb_true_iff, !negb_true_iff.
  rewrite Z.eqb_neq, Z.eqb_eq.
  rewrite (includes_checkedConditions cfg node true R).
  assert (F : includes_bool (checkedConditions cfg node) false = false <->
              forall n, enabled cfg n -> ~ linked cfg n ->
                        effective cfg n node = true).
  { rewrite <- not_true_iff_false.
    rewrite (includes_checkedConditions cfg node false R). split.
    - intros H n He Hl. apply not_false_iff_true. intros Hv.
      apply H. exists n. auto.
    - intros H (n & He & Hl & Hv). rewrite (H n He Hl) in Hv.
      discriminate Hv. }
  rewrite F. tauto.
Qed.



Lemma enabled_set_remove_flag (cfg : Config) (name m : ConditionName) :
  name <> Key.containsStrings ->
  enabled (set_remove_flag name true cfg) m <-> m = name \/ enabled cfg m.
Proof.
  intros N. unfold enabled.
  destruct name; try (now contradiction N);
    destruct m; simpl; intuition congruence.
Qed.

(** The linked result of a single linked condition. *)
Lemma linked_alone (cfg : Config) (node : Node) (name : ConditionName) :
  let c := with_linkedConditions [One name] cfg in
  shouldRemoveByLinkedConditions c node =
  if effective c name node then LINKED_TRUE else LINKED_FALSE.
Proof.
  unfold shouldRemoveByLinkedConditions, checkResult, checkLinkedConditions,
    effective, includes_result.
  simpl.
  destruct (reverseConditions (options cfg)); simpl;
    destruct (truthy (call_condition _ name node _)); reflexivity.
Qed.

(** X5.  Linking a structural condition on its own is the same as
    enabling it: with no other linked condition, the configuration with
    [linkedConditions = [name]] and the one with [remove[name] = true]
    decide every entry alike, with and without reversal. *)
Theorem link_alone_is_enable (cfg : Config) (node : Node)
        (name : ConditionName) :
  linkedConditions (options cfg) = [] ->
  name <> Key.containsStrings ->
  shouldRemoveNode (with_linkedConditions [One name] cfg) node =
  shouldRemoveNode (set_remove_flag name true cfg) node.
Proof.
  intros L N.
  set (cL := with_linkedConditions [One name] cfg).
  set (cE := set_remove_flag name true cfg).
  assert (LL : forall m, linked cL m <-> m = name).
  { intros m. unfold linked, linkedConditionsFlat. simpl.
    split; [intros [E | []]; now symmetry | intros ->; now left]. }
  assert (LE : forall m, ~ linked cE m).
  { intros m. unfold linked, linkedConditionsFlat. simpl. rewrite L.
    intros []. }
  assert (NE : shouldRemoveByLinkedConditions cE node = LINKED_NONE).
  { unfold shouldRemoveByLinkedConditions, linkedConditionsFlat. simpl.
    now rewrite L. }
  assert (EE : forall m, enabled cE m <-> m = name \/ enabled cfg m)
    by (intros m; now apply enabled_set_remove_flag).
  assert (EL : forall m, enabled cL m <-> enabled cfg m)
    by (intros m; reflexivity).
  assert (AL : forall m, atomic cL m node = atomic cfg m node)
    by reflexivity.
  assert (AE : forall m, atomic cE m node = atomic cfg m node)
    by reflexivity.
  assert (VE : forall m, effective cE m node = effective cL m node)
    by reflexivity.
  pose proof (linked_alone cfg node name) as TL. fold cL in TL. simpl in TL.
  apply eq_true_iff_eq.
  destruct (reverseConditions (options cfg)) eqn:R.
  - rewrite (decision_reversed_iff cL node R),
      (decision_reversed_iff cE node R), NE, TL.
    destruct (effective cL name node) eqn:V; split.
    + intros (_ & A & _). split; [discriminate | split].
      * intros m Hm _. rewrite VE. apply EE in Hm as [-> | Hm];
          [exact V |].
        destruct (Key_eqb_spec m name) as [-> | D]; [exact V |].
        apply A; [now apply EL | now rewrite LL].
      * right. exists name. rewrite VE, EE. auto.
    + intros (_ & A & _). split; [discriminate | split].
      * intros m Hm Hl. rewrite <- VE. apply A; [| apply LE].
        apply EE. right. now apply EL.
      * now left.
    + intros (H & _). now contradiction H.
    + intros (_ & A & _).
      assert (X : effective cE name node = true).
      { apply A; [apply EE; now left | apply LE]. }
      rewrite VE, V in X. discriminate X.
  - assert (V : effective cL name node = atomic cfg name node)
      by (apply (effective_not_reversed cL name node R)).
    rewrite (decision_not_reversed_iff cL node R),
      (decision_not_reversed_iff cE node R), NE, TL, V.
    split.
    + intros [H | (m & He & Hl & Ha)].
      * right. exists name. rewrite EE, AE. split; [now left |].
        split; [apply LE |].
        destruct (atomic cfg name node); [reflexivity | discriminate H].
      * right. exists m. rewrite EE, AE. rewrite AL in Ha.
        split; [right; now apply EL | split; [apply LE | exact Ha]].
    + intros [H | (m & He & _ & Ha)]; [discriminate H |].
      rewrite AE in Ha.
      destruct (Key_eqb_spec m name) as [-> | D].
      * left. now rewrite Ha.
      * right. exists m. rewrite AL, LL.
        apply EE in He as [-> | He]; [now contradiction D |].
        split; [now apply EL | split; [exact D | exact Ha]].
Qed.


(** X6.  The matcher takes the term groups as a set: if every group of
    one configuration is a group of another, every text the first matches
    is matched by the second; hence configurations with the same groups,
    in any order and with any repetition, match the same texts. *)
Theorem term_groups_as_a_set (cfg : Config) (node : Node)
        (tg tg' : list (Nested string)) :
  (incl tg tg' ->
   truthy (shouldRemoveStrings (with_containsStrings tg cfg) node false)
   = true ->
   truthy (shouldRemoveStrings (with_containsStrings tg' cfg) node false)
   = true)
  /\ (incl tg tg' -> incl tg' tg ->
      shouldRemoveStrings (with_containsStrings tg cfg) node false =
      shouldRemoveStrings (with_containsStrings tg' cfg) node false).
Proof.
  assert (M : forall a b : list (Nested string),
             incl a b ->
             truthy (shouldRemoveStrings (with_containsStrings a cfg) node
                                         false) = true ->
             truthy (shouldRemoveStrings (with_containsStrings b cfg) node
                                         false) = true).
  { intros a b I. unfold shouldRemoveStrings. simpl.
    destruct (flat a) as [| x r] eqn:Fa; simpl; [discriminate |].
    assert (Hx : In x (flat b)).
    { assert (Hx : In x (flat a)) by (rewrite Fa; now left).
      apply flat_In in Hx as (i & Hi & Hm). apply flat_In.
      exists i. split; [apply I, Hi | exact Hm]. }
    destruct (flat b); [destruct Hx |]. simpl.
    rewrite !existsb_exists. intros (g & Hg & Hm).
    exists g. split; [apply I, Hg | exact Hm]. }
  split; [apply M |].
  intros I I'.
  rewrite (shouldRemoveStrings_bool (with_containsStrings tg cfg)),
    (shouldRemoveStrings_bool (with_containsStrings tg' cfg)).
  f_equal. apply eq_true_iff_eq. split; apply M; assumption.
Qed.


(** ** MainApp and UIHandler *)

(** X7.  The keys of [urls] are [HOME], [PROFILE] and [SOCIAL], those of
    [runOn] are [home], [social] and [profile]: no pattern is ever allowed,
    [isAllowedUrl] is false of every address, and [observeMutations] does
    nothing, whatever the mutations are. *)
Theorem observeMutations_does_nothing (app : MainApp) (href : string)
        (mutations : list (list AddedNode)) :
  isAllowedUrl app href = false
  /\ observeMutations app href mutations = app.
Proof.
  assert (E : isAllowedUrl app href = false) by reflexivity.
  split; [exact E |]. unfold observeMutations. now rewrite E.
Qed.




Lemma removeEntry_conserves (h : Handler) (node : Node) :
  (N.of_nat (List.length (removed (removeEntry h node)))
   + currentLoadCount (removeEntry h node)
   = N.of_nat (List.length (removed h)) + currentLoadCount h + 1)%N
  /\ handler_config (removeEntry h node) = handler_config h.
Proof.
  unfold removeEntry.
  destruct (shouldRemoveNode (handler_config h) node);
    cbn [removed currentLoadCount handler_config List.length]; split;
    try reflexivity; rewrite ?Nat2N.inj_succ; lia.
Qed.

(** X9.  Every activity entry handed to [handleAddedNode] is either
    removed or counted, and nothing else is: after any run of added nodes
    the removed entries and the counter add up to what they were plus the
    number of nodes that match [div.activity-entry]; the configuration of
    the handler stays the same. *)
Theorem handleAddedNode_accounts (app : MainApp) (nodes : list AddedNode) :
  let app' := fold_left handleAddedNode nodes app in
  let entries :=
    filter (fun node =>
              match node with
              | HTMLElement _ matches _ => matches selectors.DIV.ACTIVITY
              | NotHTMLElement => false
              end)
           nodes in
  (N.of_nat (List.length (removed (ac app'))) + currentLoadCount (ac app')
   = N.of_nat (List.length (removed (ac app))) + currentLoadCount (ac app)
     + N.of_nat (List.length entries))%N
  /\ handler_config (ac app') = handler_config (ac app)
  /\ app_config app' = app_config app.
Proof.
  revert app. induction nodes as [| node r IH]; intros app; simpl.
  - repeat split. lia.
  - destruct (IH (handleAddedNode app node)) as (A & B & C).
    rewrite A, B, C. clear IH A B C.
    destruct node as [| id matches element]; simpl.
    + repeat split.
    + destruct (matches selectors.DIV.ACTIVITY); simpl.
      * destruct (removeEntry_conserves (ac app) element) as (A & B).
        rewrite A, B. repeat split. lia.
      * destruct (matches selectors.DIV.BUTTON); repeat split.
Qed.

Lemma loadMore_listener_invariant (u : UIHandler) :
  cancel_invariant u -> cancel_invariant (loadMore_listener u).
Proof.
  unfold cancel_invariant, loadMore_listener, showCancel, cancel_visible.
  simpl. intros (V & B). destruct (cancel u); simpl; split; auto.
Qed.

Lemma click_invariant (element : nat) (u : UIHandler) :
  cancel_invariant u -> cancel_invariant (click element u).
Proof.
  unfold click. generalize (click_listeners u) at 1. intros l. revert u.
  induction l as [| b r IH]; simpl; intros u H; [exact H |].
  apply IH. destruct (Nat.eqb b element); [| exact H].
  now apply loadMore_listener_invariant.
Qed.

Lemma ui_event_invariant (u : UIHandler) (e : UIEvent) :
  cancel_invariant u -> cancel_invariant (ui_event u e).
Proof.
  intros H. destruct e; simpl.
  - exact H.
  - unfold clickLoadMore. destruct (loadMore u);
      [now apply click_invariant | exact H].
  - destruct H as (V & B).
    unfold cancel_invariant, UIHandler_resetState, hideCancel,
      cancel_visible in *. simpl.
    destruct (cancel u) eqn:E; simpl; rewrite ?E; split;
      try discriminate; exact B.
  - now apply click_invariant.
  - destruct H as (V & B).
    unfold cancel_invariant, cancel_onclick, cancel_visible in *.
    destruct (cancel u) eqn:E; simpl; rewrite ?E; split;
      try discriminate; try exact B; exact V.
  - destruct H as (V & B).
    unfold cancel_invariant, interval_callback, cancel_visible in *.
    destruct (intervals u); simpl; split; auto.
Qed.

(** X10.  Whatever happens to a new [UIHandler] (calls of [setLoadMore],
    [clickLoadMore] and [resetState], clicks on elements and on the cancel
    button, firings of timers), it appends at most one cancel button to
    the page, and that button shows only while [userPressed] is on. *)
Theorem cancel_button_invariant (events : list UIEvent) :
  let u := fold_left ui_event events new_UIHandler in
  (cancel_visible u = true -> userPressed u = true)
  /\ (cancel_buttons u <= 1)%nat
  /\ (cancel_buttons u = 1%nat <-> cancel u <> None).
Proof.
  assert (I : forall u, cancel_invariant u ->
                        cancel_invariant (fold_left ui_event events u)).
  { induction events as [| e r IH]; simpl; intros u H; [exact H |].
    apply IH, ui_event_invariant, H. }
  destruct (I new_UIHandler) as (V & B).
  { split; [discriminate | reflexivity]. }
  simpl. split; [exact V |]. rewrite B.
  destruct (cancel (fold_left ui_event events new_UIHandler));
    split; try lia; split; congruence.
Qed.

Lemma interval_callback_cancelled (u : UIHandler) :
  userPressed u = false ->
  userPressed (interval_callback u) = false
  /\ intervals (interval_callback u) = (intervals u - 1)%nat
  /\ scroll_events (interval_callback u) = scroll_events u
  /\ cancel (interval_callback u) = cancel u.
Proof.
  intros H. unfold interval_callback.
  destruct (intervals u) eqn:E; simpl; rewrite ?H, ?E; repeat split;
    try exact H; lia.
Qed.

(** X11.  Once [userPressed] is off, a timer that fires stops itself
    without dispatching a scroll event: after [k] firings, [k] timers fewer
    are left, down to none, and the scroll events are as many as before. *)
Theorem timers_stop_after_cancel (u : UIHandler) (k : nat) :
  userPressed u = false ->
  let u' := Nat.iter k interval_callback u in
  intervals u' = (intervals u - k)%nat
  /\ scroll_events u' = scroll_events u
  /\ userPressed u' = false.
Proof.
  intros H. induction k as [| k IH]; simpl.
  - repeat split; [lia | exact H].
  - destruct IH as (A & B & C).
    destruct (interval_callback_cancelled _ C) as (P & Q & R & _).
    rewrite Q, R, A, B. repeat split; [lia | exact P].
Qed.

Lemma click_intervals (element : nat) (u : UIHandler) :
  intervals (click element u)
  = (intervals u + count_occ Nat.eq_dec (click_listeners u) element)%nat.
Proof.
  unfold click. generalize (click_listeners u). intros l. revert u.
  induction l as [| b r IH]; simpl; intros u; [lia |].
  rewrite IH. destruct (Nat.eqb_spec b element) as [-> | D].
  - destruct (Nat.eq_dec element element); [| congruence].
    unfold loadMore_listener, showCancel. simpl.
    destruct (cancel u); simpl; lia.
  - destruct (Nat.eq_dec b element); [congruence | lia].
Qed.

(** X12.  [setLoadMore] adds a listener each time it is called, also for
    an element it has been given before: a click on an element starts as
    many timers as [setLoadMore] was called for it. *)
Theorem click_starts_a_timer_per_registration (u : UIHandler)
        (button : nat) (k : nat) :
  let u' := Nat.iter k (fun u => setLoadMore u button) u in
  intervals (click button u')
  = (intervals u + count_occ Nat.eq_dec (click_listeners u) button + k)%nat
  /\ (0 < k -> loadMore u' = Some button)%nat.
Proof.
  simpl. rewrite click_intervals.
  induction k as [| k IH]; simpl.
  - split; lia.
  - destruct IH as (A & _).
    destruct (Nat.eq_dec button button); [| congruence].
    split; [lia | reflexivity].
Qed.


(** ** ConfigValidator *)

Lemma validateArrayContents_nested {A} (f : A -> string)
      (l : list (Nested A)) :
  validateArrayContents (map (Value_of_nested f) l) = true.
Proof.
  unfold validateArrayContents.
  induction l as [| [a | g] r IH]; simpl; [reflexivity | exact IH |].
  rewrite IH, andb_true_r. induction g; simpl; auto.
Qed.

Lemma allowedConditions_to_string (k : Key.t) :
  allowedConditions_includes (VString (Key.to_string k)) = true.
Proof. destruct k; reflexivity. Qed.

Lemma allowedConditions_key (condition : Value) :
  allowedConditions_includes condition = true ->
  exists k, condition = VString (Key.to_string k).
Proof.
  destruct condition as [| | b | n | s | l | p]; simpl; try discriminate.
  rewrite !orb_true_iff, !String.eqb_eq.
  intros [E | [E | [E | [E | [E | [E | E]]]]]]; try discriminate E; subst s.
  - now exists Key.uncommented.
  - now exists Key.unliked.
  - now exists Key.text.
  - now exists Key.images.
  - now exists Key.videos.
  - now exists Key.containsStrings.
Qed.

Lemma linked_names_allowed (lc : list (Nested ConditionName)) :
  existsb (fun condition => negb (allowedConditions_includes condition))
          (Value_flat (map (Value_of_nested Key.to_string) lc)) = false.
Proof.
  induction lc as [| [a | g] r IH]; simpl; [reflexivity | |].
  - rewrite IH. now destruct a.
  - rewrite existsb_app, IH, orb_false_r.
    induction g as [| a g IHg]; simpl; [reflexivity |].
    rewrite IHg. now destruct a.
Qed.

(** What has no disallowed element after [flat()] is an array of allowed
    names and of arrays of allowed names. *)
Lemma allowed_linkedConditions (value : list Value) :
  existsb (fun condition => negb (allowedConditions_includes condition))
          (Value_flat value) = false ->
  exists lc : list (Nested ConditionName),
    value = map (Value_of_nested Key.to_string) lc.
Proof.
  assert (G : forall g : list Value,
             existsb (fun c => negb (allowedConditions_includes c)) g
             = false ->
             exists ks : list ConditionName,
               g = map (fun k => VString (Key.to_string k)) ks).
  { induction g as [| x g IH]; simpl; intros H; [now exists [] |].
    apply orb_false_iff in H as (Hx & Hg).
    apply negb_false_iff, allowedConditions_key in Hx as (k & ->).
    destruct (IH Hg) as (ks & ->). now exists (k :: ks). }
  induction value as [| x r IH]; intros H; [now exists [] |].
  assert (S : (exists g, x = VArray g
                         /\ Value_flat (x :: r) = g ++ Value_flat r)
              \/ Value_flat (x :: r) = x :: Value_flat r).
  { destruct x; simpl; eauto. }
  destruct S as [(g & -> & E) | E]; rewrite E in H.
  - rewrite existsb_app in H. apply orb_false_iff in H as (Hg & Hr).
    destruct (G g Hg) as (ks & ->). destruct (IH Hr) as (lc & ->).
    now exists (Many ks :: lc).
  - simpl in H. apply orb_false_iff in H as (Hx & Hr).
    apply negb_false_iff, allowedConditions_key in Hx as (k & ->).
    destruct (IH Hr) as (lc & ->). now exists (One k :: lc).
Qed.

(** X13.  Every configuration of the shape of the shipped one, with a
    [targetLoadCount] of at least one, passes [validate]. *)
Theorem validate_accepts_Config (cfg : Config) :
  (1 <= targetLoadCount (options cfg))%N ->
  validate (Value_of_Config cfg) = Returned.
Proof.
  intros T. unfold validate, validate_errors.
  assert (E1 : validatePositiveNonZeroInteger (Value_of_Config cfg)
                 "options.targetLoadCount" "options.targetLoadCount" []
               = Some []).
  { unfold validatePositiveNonZeroInteger.
    change (getConfigValue (Value_of_Config cfg) "options.targetLoadCount")
      with (Some (VNumber (Some (Z.of_N (targetLoadCount (options cfg)))))).
    simpl.
    assert (P : (0 <? Z.of_N (targetLoadCount (options cfg)))%Z = true)
      by (apply Z.ltb_lt; lia).
    now rewrite P. }
  rewrite E1.
  assert (E2 : validateLinkedConditions (Value_of_Config cfg)
                 "options.linkedConditions" [] = Some []).
  { unfold validateLinkedConditions.
    change (getConfigValue (Value_of_Config cfg) "options.linkedConditions")
      with (Some (VArray (map (Value_of_nested Key.to_string)
                              (linkedConditions (options cfg))))).
    cbv beta iota zeta. now rewrite linked_names_allowed. }
  rewrite E2.
  assert (E3 : validateStringArrays (Value_of_Config cfg)
                 ["remove.containsStrings"; "options.linkedConditions"]%string
                 [] = Some []).
  { unfold validateStringArrays. cbn [fold_left].
    change (getConfigValue (Value_of_Config cfg) "remove.containsStrings")
      with (Some (VArray (map (Value_of_nested (fun s : string => s))
                              (containsStrings (remove cfg))))).
    cbv beta iota zeta. rewrite validateArrayContents_nested.
    cbn [negb]. cbv beta iota zeta.
    change (getConfigValue (Value_of_Config cfg) "options.linkedConditions")
      with (Some (VArray (map (Value_of_nested Key.to_string)
                              (linkedConditions (options cfg))))).
    cbv beta iota zeta. now rewrite validateArrayContents_nested. }
  rewrite E3. reflexivity.
Qed.


Lemma validatePositiveNonZeroInteger_spec (config : Value)
      (key configKey : string) (errors errors' : list string) :
  validatePositiveNonZeroInteger config key configKey errors
  = Some errors' ->
  exists value new,
    getConfigValue config configKey = Some value
    /\ errors' = errors ++ new
    /\ (new = [] -> is_positive_integer value = true)
    /\ (forall m, In m new ->
                  m = (key ++ " should be a positive non-zero integer")
                        %string).
Proof.
  unfold validatePositiveNonZeroInteger.
  destruct (getConfigValue config configKey) as [value |];
    [| discriminate].
  destruct (is_positive_integer value) eqn:P; simpl; intros [= <-];
    exists value.
  - exists []. rewrite app_nil_r.
    split; [reflexivity | split; [reflexivity | split]];
      [intros _; exact P | intros m []].
  - eexists.
    split; [reflexivity | split; [reflexivity | split]];
      [discriminate | intros m [<- | []]; reflexivity].
Qed.

Lemma validateLinkedConditions_spec (config : Value) (configKey : string)
      (errors errors' : list string) :
  validateLinkedConditions config configKey errors = Some errors' ->
  exists value new,
    getConfigValue config configKey = Some (VArray value)
    /\ errors' = errors ++ new
    /\ (new = [] ->
        existsb (fun c => negb (allowedConditions_includes c))
                (Value_flat value) = false)
    /\ (forall m, In m new ->
                  m = (configKey
                         ++ " should only contain the following strings: "
                         ++ join ", " allowedConditions)%string).
Proof.
  unfold validateLinkedConditions.
  destruct (getConfigValue config configKey) as [[| | | | | value |] |];
    try discriminate.
  destruct (existsb _ (Value_flat value)) eqn:P; intros [= <-];
    exists value.
  - eexists.
    split; [reflexivity | split; [reflexivity | split]];
      [discriminate | intros m [<- | []]; reflexivity].
  - exists []. rewrite app_nil_r.
    split; [reflexivity | split; [reflexivity | split]];
      [intros _; exact P | intros m []].
Qed.

Lemma validateStringArrays_spec (config : Value) (keys : list string)
      (errors errors' : list string) :
  validateStringArrays config keys errors = Some errors' ->
  exists new,
    errors' = errors ++ new
    /\ (new = [] ->
        forall key, In key keys ->
                    exists l, getConfigValue config key = Some (VArray l)
                              /\ validateArrayContents l = true)
    /\ (forall m, In m new ->
          exists key,
            In key keys
            /\ (m = (key ++ " should only contain strings")%string
                \/ (m = (key ++ " should be an array")%string
                    /\ forall l, getConfigValue config key
                                 <> Some (VArray l)))).
Proof.
  unfold validateStringArrays. revert errors.
  induction keys as [| key r IH]; simpl; intros errors H.
  - injection H as <-. exists []. rewrite app_nil_r.
    split; [reflexivity | split]; [intros _ key [] | intros m []].
  - destruct (getConfigValue config key) as [value |] eqn:G.
    2:{ exfalso. clear -H. induction r; simpl in H; [discriminate | auto]. }
    assert (S : exists step,
               (fold_left
                  (fun errors key =>
                     match errors with
                     | None => None
                     | Some errors =>
                         match getConfigValue config key with
                         | None => None
                         | Some (VArray value) =>
                             if negb (validateArrayContents value)
                             then Some (errors
                                        ++ [(key
                                             ++ " should only contain strings")
                                              %string])
                             else Some errors
                         | Some _ =>
                             Some (errors
                                   ++ [(key ++ " should be an array")%string])
                         end
                     end) r (Some (errors ++ step)) = Some errors')
               /\ (step = [] ->
                   exists l, value = VArray l
                             /\ validateArrayContents l = true)
               /\ (forall m, In m step ->
                     m = (key ++ " should only contain strings")%string
                     \/ (m = (key ++ " should be an array")%string
                         /\ forall l, value <> VArray l))).
    { destruct value as [| | b | n | s | l | p];
        try (eexists; split; [exact H |];
             split; [discriminate |];
             intros m [<- | []]; right; split; [reflexivity | discriminate]).
      destruct (validateArrayContents l) eqn:V; simpl in H.
      - exists []. rewrite app_nil_r. split; [exact H |].
        split; [intros _; now exists l | intros m []].
      - eexists. split; [exact H |]. split; [discriminate |].
        intros m [<- | []]. now left. }
    destruct S as (step & Hs & Hnil & Hmsg).
    destruct (IH _ Hs) as (new & E & Hn & Hm).
    exists (step ++ new). rewrite app_assoc. split; [exact E |]. split.
    + intros Z. apply app_eq_nil in Z as (-> & ->).
      intros k [<- | Hk]; [| now apply Hn].
      destruct (Hnil eq_refl) as (l & -> & V). now exists l.
    + intros m Hin. apply in_app_iff in Hin as [Hin | Hin].
      * exists key. split; [now left |].
        destruct (Hmsg m Hin) as [-> | (-> & Hv)]; [now left | right].
        split; [reflexivity |]. intros l. rewrite G. intros [= ->].
        exact (Hv l eq_refl).
      * destruct (Hm m Hin) as (k & Hk & D). exists k. split; [now right |].
        exact D.
Qed.

Lemma validateBooleans_spec (config : Value) (keys : list string)
      (errors errors' : list string) :
  validateBooleans config keys errors = Some errors' ->
  exists new,
    errors' = errors ++ new
    /\ (new = [] ->
        forall key, In key keys ->
                    exists b, getConfigValue config key = Some (VBoolean b))
    /\ (forall m, In m new ->
          exists key, In key keys
                      /\ m = (key ++ " should be a boolean")%string).
Proof.
  unfold validateBooleans. revert errors.
  induction keys as [| key r IH]; simpl; intros errors H.
  - injection H as <-. exists []. rewrite app_nil_r.
    split; [reflexivity | split]; [intros _ key [] | intros m []].
  - destruct (getConfigValue config key) as [value |] eqn:G.
    2:{ exfalso. clear -H. induction r; simpl in H; [discriminate | auto]. }
    destruct (is_boolean value) eqn:B; simpl in H.
    + destruct (IH _ H) as (new & E & Hn & Hm).
      exists new. split; [exact E |]. split.
      * intros Z k [<- | Hk]; [| now apply Hn].
        destruct value; try discriminate B. now exists b.
      * intros m Hin. destruct (Hm m Hin) as (k & Hk & D).
        exists k. split; [now right | exact D].
    + destruct (IH _ H) as (new & E & Hn & Hm).
      exists ([(key ++ " should be a boolean")%string] ++ new).
      rewrite app_assoc. split; [exact E |]. split; [discriminate |].
      intros m [<- | Hin]; [exists key; split; [now left | reflexivity] |].
      destruct (Hm m Hin) as (k & Hk & D).
      exists k. split; [now right | exact D].
Qed.

(** X14.  A configuration object that passes [validate] has the shape the
    activity handler relies on, but for the depth of [containsStrings]:
    [targetLoadCount] is a positive integer, [linkedConditions] is an array
    of the six condition names and of arrays of them, [containsStrings] is
    an array whose strings may be nested to any depth, and the ten flags
    are booleans. *)
Theorem validate_sound (config : Value) :
  validate config = Returned ->
  (exists n, getConfigValue config "options.targetLoadCount"
             = Some (VNumber (Some n)) /\ (0 < n)%Z)
  /\ (exists lc : list (Nested ConditionName),
         getConfigValue config "options.linkedConditions"
         = Some (VArray (map (Value_of_nested Key.to_string) lc)))
  /\ (exists l, getConfigValue config "remove.containsStrings"
                = Some (VArray l) /\ validateArrayContents l = true)
  /\ (forall key, In key boolean_keys ->
                  exists b, getConfigValue config key = Some (VBoolean b)).
Proof.
  unfold validate, validate_errors.
  destruct (validatePositiveNonZeroInteger _ _ _ _) as [e1 |] eqn:S1;
    [| discriminate].
  destruct (validateLinkedConditions _ _ _) as [e2 |] eqn:S2;
    [| discriminate].
  destruct (validateStringArrays _ _ _) as [e3 |] eqn:S3; [| discriminate].
  destruct (validateBooleans _ _ _) as [e4 |] eqn:S4; [| discriminate].
  destruct e4 as [| m e4]; [intros _ | discriminate].
  apply validateBooleans_spec in S4 as (n4 & E4 & B & _).
  symmetry in E4. apply app_eq_nil in E4 as (-> & ->).
  apply validateStringArrays_spec in S3 as (n3 & E3 & A & _).
  symmetry in E3. apply app_eq_nil in E3 as (-> & ->).
  apply validateLinkedConditions_spec in S2 as (value & n2 & G2 & E2 & L & _).
  symmetry in E2. apply app_eq_nil in E2 as (-> & ->).
  apply validatePositiveNonZeroInteger_spec in S1
    as (v & n1 & G1 & E1 & P & _).
  symmetry in E1. apply app_eq_nil in E1 as (_ & ->).
  split; [| split; [| split]].
  - specialize (P eq_refl). destruct v as [| | b | [n |] | s | l | p];
      try discriminate P.
    exists n. split; [exact G1 | now apply Z.ltb_lt].
  - destruct (allowed_linkedConditions value (L eq_refl)) as (lc & ->).
    now exists lc.
  - apply (A eq_refl). now left.
  - exact (B eq_refl).
Qed.

(** X15.  [validateLinkedConditions] calls [flat()] on
    [options.linkedConditions] before [validateStringArrays] looks at it:
    when the list of errors is reached at all, [linkedConditions] is an
    array, and the error ["options.linkedConditions should be an array"]
    is never in the list; on what is no array [validate] throws a
    [TypeError] instead. *)
Theorem linkedConditions_not_an_array (config : Value) :
  (forall errors, validate_errors config = Some errors ->
     (exists l, getConfigValue config "options.linkedConditions"
                = Some (VArray l))
     /\ ~ In "options.linkedConditions should be an array"%string errors)
  /\ ((forall l, getConfigValue config "options.linkedConditions"
                 <> Some (VArray l)) ->
      validate config = Thrown_TypeError).
Proof.
  assert (A : forall errors, validate_errors config = Some errors ->
     (exists l, getConfigValue config "options.linkedConditions"
                = Some (VArray l))
     /\ ~ In "options.linkedConditions should be an array"%string errors).
  { unfold validate_errors. intros errors.
    destruct (validatePositiveNonZeroInteger _ _ _ _) as [e1 |] eqn:S1;
      [| discriminate].
    destruct (validateLinkedConditions _ _ _) as [e2 |] eqn:S2;
      [| discriminate].
    destruct (validateStringArrays _ _ _) as [e3 |] eqn:S3;
      [| discriminate].
    intros S4.
    apply validateBooleans_spec in S4 as (n4 & -> & _ & M4).
    apply validateStringArrays_spec in S3 as (n3 & -> & _ & M3).
    apply validateLinkedConditions_spec in S2
      as (value & n2 & G2 & -> & _ & M2).
    apply validatePositiveNonZeroInteger_spec in S1
      as (v & n1 & _ & -> & _ & M1).
    split; [now exists value |]. simpl. rewrite !in_app_iff.
    intros [[[H | H] | H] | H].
    - apply M1 in H. discriminate H.
    - apply M2 in H. discriminate H.
    - apply M3 in H as (key & [<- | [<- | []]] & [H | (H & N)]);
        try discriminate H.
      exact (N value G2).
    - apply M4 in H as (key & Hk & H). simpl in Hk.
      repeat (destruct Hk as [<- | Hk]; [discriminate H |]).
      destruct Hk. }
  split; [exact A |].
  intros N. unfold validate.
  destruct (validate_errors config) as [errors |] eqn:E; [| reflexivity].
  destruct (A errors eq_refl) as ((l & G) & _). now contradiction (N l).
Qed.

(** X16.  [validateArrayContents] does not look at how deep the strings
    are nested: it gives the same answer on an array and on its [flat()],
    and on an array and the array that holds it as only element.  A
    [containsStrings] nested deeper than the one level [shouldRemoveStrings]
    reads passes it. *)
Theorem validateArrayContents_any_depth (arr : list Value) :
  validateArrayContents (Value_flat arr) = validateArrayContents arr
  /\ validateArrayContents [VArray arr] = validateArrayContents arr.
Proof.
  split.
  - unfold validateArrayContents.
    induction arr as [| x r IH]; [reflexivity |].
    destruct x; simpl; rewrite ?forallb_app, ?IH; reflexivity.
  - unfold validateArrayContents. simpl. apply andb_true_r.
Qed.

End ActivityHandler.

(** ** The properties at concrete configurations and entries

    In what follows the text is ASCII and [toLowerCase] is
    [toLowerCaseASCII]. *)

(** C1 at a reversed configuration that removes uncommented activities,
    and an activity that has a comment. *)
Lemma shouldRemoveNode_reversed_witness :
  reverseConditions (options config_uncommented_reversed) = true
  /\ (shouldRemoveNode toLowerCaseASCII config_uncommented_reversed
                       entry_commented = true <->
      shouldRemoveByLinkedConditions toLowerCaseASCII
        config_uncommented_reversed entry_commented <> LINKED_FALSE
      /\ (forall n, enabled config_uncommented_reversed n ->
                    ~ linked config_uncommented_reversed n ->
                    effective toLowerCaseASCII config_uncommented_reversed
                              n entry_commented <> false)
      /\ (shouldRemoveByLinkedConditions toLowerCaseASCII
            config_uncommented_reversed entry_commented = LINKED_TRUE
          \/ exists n, enabled config_uncommented_reversed n
                       /\ ~ linked config_uncommented_reversed n
                       /\ effective toLowerCaseASCII
                            config_uncommented_reversed n entry_commented
                          = true)).
Proof.
  split; [reflexivity |].
  apply (shouldRemoveNode_reversed toLowerCaseASCII
           config_uncommented_reversed entry_commented).
  reflexivity.
Defined.

(** C2 at the configuration that removes uncommented activities, and an
    activity without any comment. *)
Lemma shouldRemoveNode_not_reversed_witness :
  reverseConditions (options config_uncommented) = false
  /\ (shouldRemoveNode toLowerCaseASCII config_uncommented leaf = true <->
      shouldRemoveByLinkedConditions toLowerCaseASCII config_uncommented
                                     leaf = LINKED_TRUE
      \/ exists n, enabled config_uncommented n
                   /\ ~ linked config_uncommented n
                   /\ effective toLowerCaseASCII config_uncommented n leaf
                      = true)
  /\ (forall n, effective toLowerCaseASCII config_uncommented n leaf =
                atomic toLowerCaseASCII config_uncommented n leaf).
Proof.
  split; [reflexivity |].
  apply (shouldRemoveNode_not_reversed toLowerCaseASCII config_uncommented
                                       leaf).
  reflexivity.
Defined.

(** C5 at a reversed configuration with terms, for [containsStrings]. *)
Lemma effective_reversed_witness :
  reverseConditions (options config_foo_bar_baz_reversed) = true
  /\ effective toLowerCaseASCII config_foo_bar_baz_reversed
               Key.containsStrings entry_commented =
     negb (atomic toLowerCaseASCII config_foo_bar_baz_reversed
                  Key.containsStrings entry_commented).
Proof.
  split; [reflexivity |].
  apply (effective_reversed toLowerCaseASCII config_foo_bar_baz_reversed
                            Key.containsStrings entry_commented).
  reflexivity.
Defined.

(** C5 as it was stated fails: with [reverseConditions] on and no term
    configured, the effective [containsStrings] predicate is [false], as
    the atomic one is, and not its negation. *)
Lemma effective_reversed_empty_terms :
  reverseConditions (options config_reversed) = true
  /\ containsStrings (remove config_reversed) = []
  /\ atomic toLowerCaseASCII config_reversed Key.containsStrings leaf
     = false
  /\ effective toLowerCaseASCII config_reversed Key.containsStrings leaf
     = false
  /\ effective toLowerCaseASCII config_reversed Key.containsStrings leaf
     <> negb (atomic toLowerCaseASCII config_reversed Key.containsStrings
                     leaf).
Proof. repeat split. discriminate. Qed.

(** C7 as it was stated fails: on the non-empty sequence made of one empty
    group the matcher returns [false], where the disjunction over the
    groups is [true], the empty group matching every text. *)
Lemma shouldRemoveStrings_empty_group :
  containsStrings (remove config_empty_terms_group) = [Many []]
  /\ shouldRemoveStrings toLowerCaseASCII config_empty_terms_group leaf
                         false = JBool false
  /\ spec_matches toLowerCaseASCII (textContent leaf)
                  (containsStrings (remove config_empty_terms_group))
                  (caseSensitive (options config_empty_terms_group)) = true
  /\ truthy (shouldRemoveStrings toLowerCaseASCII config_empty_terms_group
                                 leaf false)
     <> spec_matches toLowerCaseASCII (textContent leaf)
                     (containsStrings (remove config_empty_terms_group))
                     (caseSensitive (options config_empty_terms_group)).
Proof. repeat split. discriminate. Qed.


(** C10 at [linkedConditions = [[], ["images"]]], with and without
    reversal. *)
Lemma empty_group_decides_witness :
  In (Many []) (linkedConditions (options config_empty_group))
  /\ linkedConditionsFlat config_empty_group <> []
  /\ (checkLinkedConditions toLowerCaseASCII config_empty_group leaf []
      = true
      /\ shouldRemoveByLinkedConditions toLowerCaseASCII config_empty_group
                                        leaf = LINKED_TRUE
      /\ shouldRemoveNode toLowerCaseASCII config_empty_group leaf = true)
  /\ In (Many []) (linkedConditions (options config_empty_group_reversed))
  /\ linkedConditionsFlat config_empty_group_reversed <> []
  /\ (checkLinkedConditions toLowerCaseASCII config_empty_group_reversed
                            entry_image []
      = false
      /\ shouldRemoveByLinkedConditions toLowerCaseASCII
           config_empty_group_reversed entry_image = LINKED_FALSE
      /\ shouldRemoveNode toLowerCaseASCII config_empty_group_reversed
                          entry_image = false).
Proof.
  assert (I : In (Many []) (linkedConditions (options config_empty_group)))
    by (left; reflexivity).
  assert (N : linkedConditionsFlat config_empty_group <> [])
    by discriminate.
  split; [exact I |]. split; [exact N |].
  split;
    [exact (empty_group_decides toLowerCaseASCII config_empty_group leaf
              I N) |].
  split; [exact I |]. split; [exact N |].
  exact (empty_group_decides toLowerCaseASCII config_empty_group_reversed
           entry_image I N).
Defined.

(** ** The decision on sample entries *)

Example uncommented_removed :
  shouldRemoveNode toLowerCaseASCII config_uncommented leaf = true
  /\ shouldRemoveNode toLowerCaseASCII config_uncommented entry_commented
     = false.
Proof. split; reflexivity. Qed.

Example reversed_keeps_uncommented :
  shouldRemoveNode toLowerCaseASCII config_uncommented_reversed
                   entry_commented = true
  /\ shouldRemoveNode toLowerCaseASCII config_uncommented_reversed leaf
     = false.
Proof. split; reflexivity. Qed.

Example terms_and_within_or_across :
  shouldRemoveNode toLowerCaseASCII config_foo_bar_baz
                   (entry_with_text "this has FOO and bar") = true
  /\ shouldRemoveNode toLowerCaseASCII config_foo_bar_baz
                      (entry_with_text "only foo here") = false
  /\ shouldRemoveNode toLowerCaseASCII config_foo_bar_baz
                      (entry_with_text "contains baz") = true.
Proof. repeat split; reflexivity. Qed.

Example nothing_configured_nothing_removed :
  shouldRemoveNode toLowerCaseASCII config entry_image_video = false
  /\ shouldRemoveByLinkedConditions toLowerCaseASCII config
                                    entry_image_video = LINKED_NONE.
Proof. split; reflexivity. Qed.

Example counter_counts_kept_entries :
  let h := new_ActivityHandler config_uncommented in
  let h1 := removeEntry toLowerCaseASCII h entry_commented in
  let h2 := removeEntry toLowerCaseASCII h1 leaf in
  let h3 := removeEntry toLowerCaseASCII h2 entry_commented in
  currentLoadCount h3 = 2%N
  /\ List.length (removed h3) = 1%nat
  /\ currentLoadCount (resetState h3) = 0%N.
Proof. repeat split; reflexivity. Qed.

(** ** The further properties at concrete configurations and entries *)

Lemma nothing_configured_keeps_everything_witness :
  shouldRemoveNode toLowerCaseASCII config_reversed entry_image_video
  = false.
Proof.
  apply (nothing_configured_keeps_everything toLowerCaseASCII
           config_reversed entry_image_video); reflexivity.
Defined.

Lemma reversal_complements_witness :
  shouldRemoveNode toLowerCaseASCII
    (with_reverseConditions true config_terms_linked) entry_commented
  = negb (shouldRemoveNode toLowerCaseASCII
            (with_reverseConditions false config_terms_linked)
            entry_commented).
Proof.
  apply (reversal_complements toLowerCaseASCII config_terms_linked
                              entry_commented).
  - intros _. discriminate.
  - left. discriminate.
Defined.

Lemma text_with_media_group_witness :
  checkLinkedConditions toLowerCaseASCII config entry_image
                        [Key.text; Key.images]
  = reverseConditions (options config).
Proof.
  apply (text_with_media_group toLowerCaseASCII config entry_image
                               [Key.text; Key.images]).
  - left. reflexivity.
  - left. right. left. reflexivity.
Defined.

Lemma link_alone_is_enable_witness :
  shouldRemoveNode toLowerCaseASCII
    (with_linkedConditions [One Key.images] config_uncommented_reversed)
    entry_image
  = shouldRemoveNode toLowerCaseASCII
      (set_remove_flag Key.images true config_uncommented_reversed)
      entry_image.
Proof.
  apply (link_alone_is_enable toLowerCaseASCII config_uncommented_reversed
                              entry_image Key.images).
  - reflexivity.
  - discriminate.
Defined.

Lemma term_groups_as_a_set_witness :
  truthy (shouldRemoveStrings toLowerCaseASCII
            (with_containsStrings [One "baz"]%string config)
            (entry_with_text "contains baz") false) = true
  /\ truthy (shouldRemoveStrings toLowerCaseASCII
               (with_containsStrings
                  [Many ["foo"; "bar"]; One "baz"]%string config)
               (entry_with_text "contains baz") false) = true.
Proof.
  assert (I : incl [One "baz"%string]
                   [Many ["foo"; "bar"]; One "baz"]%string).
  { intros g [<- | []]. right. left. reflexivity. }
  assert (M : truthy (shouldRemoveStrings toLowerCaseASCII
                        (with_containsStrings [One "baz"]%string config)
                        (entry_with_text "contains baz") false) = true)
    by reflexivity.
  split; [exact M |].
  exact (proj1 (term_groups_as_a_set toLowerCaseASCII config
                  (entry_with_text "contains baz") _ _) I M).
Defined.


Lemma timers_stop_after_cancel_witness :
  userPressed (cancel_onclick (loadMore_listener
                                 (loadMore_listener new_UIHandler)))
  = false
  /\ intervals (Nat.iter 2 interval_callback
                  (cancel_onclick (loadMore_listener
                                     (loadMore_listener new_UIHandler))))
     = 0%nat.
Proof.
  assert (U : userPressed (cancel_onclick
                             (loadMore_listener
                                (loadMore_listener new_UIHandler)))
              = false) by reflexivity.
  split; [exact U |].
  exact (proj1 (timers_stop_after_cancel
                  (cancel_onclick (loadMore_listener
                                     (loadMore_listener new_UIHandler)))
                  2 U)).
Defined.

Lemma validate_accepts_Config_witness :
  (1 <= targetLoadCount (options config))%N
  /\ validate (Value_of_Config config) = Returned.
Proof.
  assert (T : (1 <= targetLoadCount (options config))%N) by (simpl; lia).
  split; [exact T | exact (validate_accepts_Config config T)].
Defined.

Lemma validate_sound_witness :
  validate (Value_of_Config config_terms_linked) = Returned
  /\ exists lc : list (Nested ConditionName),
       getConfigValue (Value_of_Config config_terms_linked)
                      "options.linkedConditions"
       = Some (VArray (map (Value_of_nested Key.to_string) lc)).
Proof.
  assert (V : validate (Value_of_Config config_terms_linked) = Returned)
    by reflexivity.
  split; [exact V |].
  exact (proj1 (proj2 (validate_sound (Value_of_Config config_terms_linked)
                                      V))).
Defined.

(** A configuration whose [linkedConditions] is a string: [validate]
    throws a [TypeError], and reports nothing. *)
Lemma linkedConditions_not_an_array_witness :
  validate
    (VObject
       [("options",
         VObject [("targetLoadCount", VNumber (Some 2%Z));
                  ("linkedConditions", VString "images")])]%string)
  = Thrown_TypeError.
Proof.
  apply (proj2 (linkedConditions_not_an_array _)).
  intros l. discriminate.
Defined.

(** The shipped configuration on the home feed: nothing runs. *)
Example home_feed_is_not_allowed :
  isAllowedUrl (fun _ _ => true) (new_MainApp config)
               "https://anilist.co/home" = false.
Proof. reflexivity. Qed.
